(** * NotionK4S: the entity stores, the realtime reconciler and the
    client-side filters, embedded from the TypeScript sources.

    - [Js]: the JavaScript values and objects the stores pass around.
    - [Runtime]: the backend client, the notification helper, the clock, and
      a small monad for the asynchronous store actions (store state, thrown
      exceptions, and the trace of calls made to the outside world).
    - [NotesStore], [ChatStore], [PersonalNotesStore]: the zustand stores.
    - [Text], [Dates]: the string and calendar operations the pages use.
    - [Expenses], [GlobalSearch]: the client-side filters of the pages.

    The definitions come first; the facts proved about them follow, one
    section per concern. *)

From Stdlib Require Import ZArith String Ascii List Bool Lia.
From stdpp Require Import base option list strings pretty gmap.

Local Open Scope string_scope.
Local Open Scope list_scope.

(* ===================================================================== *)
(** ** JavaScript values and objects *)
(* ===================================================================== *)

Module Js.

(** The values that occur in the rows and partial rows of the stores. *)
Inductive JsVal :=
| JUndefined
| JNull
| JBool (b : bool)
| JNum (n : Z)
| JStr (s : string)
| JArr (items : list string)
| JRecord (fields : list (string * string)).

#[global] Instance JsVal_eq_dec : EqDecision JsVal.
Proof. solve_decision. Defined.

(** A JavaScript object used as a record of named properties. *)
Abbreviation JsObj := (gmap string JsVal).

(** Truthiness, as tested by [if (v)], [v || d] and [v && e]. *)
Definition truthy (v : JsVal) : bool :=
  match v with
  | JUndefined | JNull => false
  | JBool b => b
  | JNum n => negb (n =? 0)%Z
  | JStr s => negb (String.eqb s "")
  | JArr _ | JRecord _ => true
  end.

(** [a || b] *)
Definition or_else (a b : JsVal) : JsVal := if truthy a then a else b.

(** [a === b] on the primitive values compared in the stores. *)
Definition strict_eq (a b : JsVal) : bool := bool_decide (a = b).

(** [o.k]: a missing property reads as [undefined]. *)
Definition prop (o : JsObj) (k : string) : JsVal := default JUndefined (o !! k).

(** [o?.k] on a possibly-null object. *)
Definition opt_prop (o : option JsObj) (k : string) : JsVal :=
  match o with
  | Some o => prop o k
  | None => JUndefined
  end.

(** ['k' in o] *)
Definition has (k : string) (o : JsObj) : bool := bool_decide (is_Some (o !! k)).

(** [{ ...base, ...over }]: the later spread wins. *)
Definition spread (base over : JsObj) : JsObj := over ∪ base.

(** The string a value contributes to a template literal. *)
Definition to_string (v : JsVal) : string :=
  match v with
  | JUndefined => "undefined"
  | JNull => "null"
  | JBool true => "true"
  | JBool false => "false"
  | JNum n => if (n <? 0)%Z then "-" +:+ pretty (Z.to_N (- n)) else pretty (Z.to_N n)
  | JStr s => s
  | JArr items => String.concat "," items
  | JRecord _ => "[object Object]"
  end.

End Js.

Import Js.

(* ===================================================================== *)
(** ** The outside world and the action monad *)
(* ===================================================================== *)

Module Runtime.

(** A thrown value or a backend error object; only [message] is read. *)
Record JsError := { message : string }.

(** The outcome of awaiting a promise. *)
Inductive Awaited (A : Type) :=
| Resolved (a : A)
| Rejected (e : JsError).
Arguments Resolved {A} a.
Arguments Rejected {A} e.

(** The [{ data, error }] pair a backend query resolves with. *)
Inductive PgResponse (A : Type) :=
| PgSuccess (data : A)
| PgFailure (error : JsError).
Arguments PgSuccess {A} data.
Arguments PgFailure {A} error.

Definition data_of {A} (r : PgResponse A) : option A :=
  match r with PgSuccess d => Some d | PgFailure _ => None end.

Definition error_of {A} (r : PgResponse A) : option JsError :=
  match r with PgSuccess _ => None | PgFailure e => Some e end.

(** *** The query builder *)

Inductive Verb :=
| Unset
| Select (columns : string)
| Insert (rows : list JsObj)
| Upsert (rows : list JsObj)
| Update (payload : JsObj)
| Delete.

Inductive Constraint :=
| Eq (column value : string)
| Ilike (column pattern : string).

Record Request := {
  table : string;
  verb : Verb;
  returning : bool;
  constraints : list Constraint;
  ordering : option (string * bool);
  row_limit : option nat;
  single_row : bool
}.

Definition from (t : string) : Request :=
  {| table := t; verb := Unset; returning := false; constraints := [];
     ordering := None; row_limit := None; single_row := false |}.

Definition with_verb (v : Verb) (q : Request) : Request :=
  {| table := table q; verb := v; returning := returning q;
     constraints := constraints q; ordering := ordering q;
     row_limit := row_limit q; single_row := single_row q |}.

Definition select (columns : string) (q : Request) : Request := with_verb (Select columns) q.
Definition insert_rows (rows : list JsObj) (q : Request) : Request := with_verb (Insert rows) q.
Definition upsert_rows (rows : list JsObj) (q : Request) : Request := with_verb (Upsert rows) q.
Definition update (payload : JsObj) (q : Request) : Request := with_verb (Update payload) q.
Definition delete_rows (q : Request) : Request := with_verb Delete q.

(** [.select()] chained after a mutation: return the written rows. *)
Definition select_written (q : Request) : Request :=
  {| table := table q; verb := verb q; returning := true;
     constraints := constraints q; ordering := ordering q;
     row_limit := row_limit q; single_row := single_row q |}.

Definition add_constraint (c : Constraint) (q : Request) : Request :=
  {| table := table q; verb := verb q; returning := returning q;
     constraints := constraints q ++ [c]; ordering := ordering q;
     row_limit := row_limit q; single_row := single_row q |}.

Definition eq (column value : string) (q : Request) : Request := add_constraint (Eq column value) q.
Definition ilike (column pattern : string) (q : Request) : Request := add_constraint (Ilike column pattern) q.

Definition order (column : string) (ascending : bool) (q : Request) : Request :=
  {| table := table q; verb := verb q; returning := returning q;
     constraints := constraints q; ordering := Some (column, ascending);
     row_limit := row_limit q; single_row := single_row q |}.

Definition limit (n : nat) (q : Request) : Request :=
  {| table := table q; verb := verb q; returning := returning q;
     constraints := constraints q; ordering := ordering q;
     row_limit := Some n; single_row := single_row q |}.

Definition single (q : Request) : Request :=
  {| table := table q; verb := verb q; returning := returning q;
     constraints := constraints q; ordering := ordering q;
     row_limit := row_limit q; single_row := true |}.

(** *** The backend client

    The hosted backend is outside the program: a client answers every
    request by resolving with a response or by rejecting.  [run] answers
    list-shaped queries (whose [data] may be [null]), [run_single] the
    ones that end in [.single()]. *)
Record Supabase := {
  run : Request -> Awaited (PgResponse (option (list JsObj)));
  run_single : Request -> Awaited (PgResponse JsObj);
  auth_getUser : Awaited (option JsObj)
}.

(** The argument of [createNotification]. *)
Record NotificationParams := {
  userId : JsVal;
  kind : string;
  title : string;
  body : string;
  noteId : JsVal;
  personalNoteId : JsVal;
  fromUserId : JsVal
}.

(** What the stores can observe of the world around them.
    [createNotification] is imported from the backend library module, which
    is not among the sources: it is taken as a parameter that, like any
    awaited call, resolves (with a result the note stores ignore, given
    here as the error it reports, if any) or rejects. *)
Record World := {
  isSupabaseConfigured : bool;
  supabase : option Supabase;
  createNotification : NotificationParams -> Awaited (option JsError);
  clock_iso : Z -> string;
  date_now : string;
  random_suffix : string
}.

(** [new Date().toISOString()]; [clock_iso w d] is the same reading of the
    clock shifted by [d] milliseconds. *)
Definition now_iso (w : World) : string := clock_iso w 0.

(** The test [!isSupabaseConfigured || !supabase] picks the demo branch;
    otherwise the client is available. *)
Definition connected (w : World) : option Supabase :=
  if isSupabaseConfigured w then supabase w else None.

(** The calls a store action makes to the outside, in order. *)
Inductive Event :=
| EvQuery (q : Request)
| EvGetUser
| EvNotify (p : NotificationParams)
| EvConsoleError (label : string) (e : JsError)
| EvRemoveChannel (topic : string).

(** *** Store actions: state, exceptions, trace *)

Inductive Outcome (A : Type) :=
| Returned (a : A)
| Thrown (e : JsError).
Arguments Returned {A} a.
Arguments Thrown {A} e.

Definition M (S A : Type) : Type := S -> Outcome A * S * list Event.

Definition ret {S A} (a : A) : M S A := fun st => (Returned a, st, []).

Definition bind {S A B} (m : M S A) (k : A -> M S B) : M S B :=
  fun st =>
    match m st with
    | (Returned a, st1, t1) =>
        match k a st1 with
        | (o, st2, t2) => (o, st2, t1 ++ t2)
        end
    | (Thrown e, st1, t1) => (Thrown e, st1, t1)
    end.

#[global] Instance M_ret {S} : MRet (M S) := fun A => @ret S A.
#[global] Instance M_bind {S} : MBind (M S) := fun A B k m => @bind S A B m k.

Definition throw {S A} (e : JsError) : M S A := fun st => (Thrown e, st, []).

(** [try { body } catch (err) { handler err }] *)
Definition try_catch {S A} (body : M S A) (handler : JsError -> M S A) : M S A :=
  fun st =>
    match body st with
    | (Returned a, st1, t1) => (Returned a, st1, t1)
    | (Thrown e, st1, t1) =>
        match handler e st1 with
        | (o, st2, t2) => (o, st2, t1 ++ t2)
        end
    end.

(** zustand's [get()] and [set(fn)]. *)
Definition get {S} : M S S := fun st => (Returned st, st, []).
Definition set {S} (f : S -> S) : M S unit := fun st => (Returned tt, f st, []).

Definition emit {S} (ev : Event) : M S unit := fun st => (Returned tt, st, [ev]).

(** [await p], the call being recorded as [ev]. *)
Definition await {S A} (ev : Event) (p : Awaited A) : M S A :=
  fun st =>
    match p with
    | Resolved a => (Returned a, st, [ev])
    | Rejected e => (Thrown e, st, [ev])
    end.

Definition await_query {S} (sb : Supabase) (q : Request)
  : M S (PgResponse (option (list JsObj))) :=
  await (EvQuery q) (run sb q).

Definition await_single {S} (sb : Supabase) (q : Request) : M S (PgResponse JsObj) :=
  await (EvQuery q) (run_single sb q).

Definition await_getUser {S} (sb : Supabase) : M S (option JsObj) :=
  await EvGetUser (auth_getUser sb).

Definition await_createNotification {S} (w : World) (p : NotificationParams)
  : M S (option JsError) :=
  await (EvNotify p) (createNotification w p).

Definition console_error {S} (label : string) (e : JsError) : M S unit :=
  emit (EvConsoleError label e).

(** Projections of a finished run. *)
Definition outcome {S A} (r : Outcome A * S * list Event) : Outcome A := r.1.1.
Definition final {S A} (r : Outcome A * S * list Event) : S := r.1.2.
Definition trace {S A} (r : Outcome A * S * list Event) : list Event := r.2.

(** The [{ error: string | null }] result of the mutating actions. *)
Record OpResult := { error : option string }.

(** [generateId()] *)
Definition generateId (w : World) : string :=
  "demo-" +:+ date_now w +:+ "-" +:+ random_suffix w.

End Runtime.

Import Runtime.

(* ===================================================================== *)
(** ** src/store/chatStore.ts *)
(* ===================================================================== *)

Module ChatStore.

Record ChatState := {
  channels : list JsObj;
  messages : list JsObj;
  currentChannel : option JsObj;
  isLoading : bool;
  isLoadingMessages : bool
}.

Definition set_messages (ms : list JsObj) (s : ChatState) : ChatState :=
  {| channels := channels s; messages := ms; currentChannel := currentChannel s;
     isLoading := isLoading s; isLoadingMessages := isLoadingMessages s |}.

Definition set_channels (cs : list JsObj) (s : ChatState) : ChatState :=
  {| channels := cs; messages := messages s; currentChannel := currentChannel s;
     isLoading := isLoading s; isLoadingMessages := isLoadingMessages s |}.

Definition set_isLoadingMessages (b : bool) (s : ChatState) : ChatState :=
  {| channels := channels s; messages := messages s; currentChannel := currentChannel s;
     isLoading := isLoading s; isLoadingMessages := b |}.

Definition message_columns : string :=
  "*, user:profiles!chat_messages_user_id_fkey(id, full_name, email, avatar_url)".

Definition demo_message (w : World) (channelId : string) : JsObj :=
  list_to_map
    [("id", JStr "demo-msg-1");
     ("channel_id", JStr channelId);
     ("user_id", JStr "demo-user");
     ("content", JStr "¡Bienvenidos al chat del equipo! 🎉");
     ("message_type", JStr "text");
     ("created_at", JStr (clock_iso w (-3600000)));
     ("user", JRecord [("id", "demo-user"); ("full_name", "Sistema");
                       ("email", "system@kor4soft.com")])].

Definition messages_query (channelId : string) : Request :=
  limit 100 (order "created_at" true (eq "channel_id" channelId
    (select message_columns (from "chat_messages")))).

Definition fetchMessages (w : World) (channelId : string) : M ChatState unit :=
  match connected w with
  | None =>
      set (fun s => set_isLoadingMessages false (set_messages [demo_message w channelId] s))
  | Some sb =>
      set (set_isLoadingMessages true);;
      try_catch
        (resp ← await_query sb (messages_query channelId);
         match resp with
         | PgFailure error => throw error
         | PgSuccess data =>
             set (fun s => set_isLoadingMessages false (set_messages (default [] data) s))
         end)
        (fun error =>
           console_error "Error fetching messages:" error;;
           set (set_isLoadingMessages false))
  end.

Definition insert_channel_query (name : string) (description : JsVal) (type : string)
    (user : option JsObj) : Request :=
  single (select_written (insert_rows
    [list_to_map [("name", JStr name); ("description", description);
                  ("type", JStr type); ("created_by", opt_prop user "id")]]
    (from "chat_channels"))).

(** [createChannel(name, description, type = 'public')] *)
Definition createChannel (w : World) (name : string) (description : JsVal)
    (type : option string) : M ChatState OpResult :=
  let type := default "public" type in
  match connected w with
  | None => mret {| error := None |}
  | Some sb =>
      try_catch
        (user ← await_getUser sb;
         resp ← await_single sb (insert_channel_query name description type user);
         match resp with
         | PgFailure error => mret {| error := Some (message error) |}
         | PgSuccess data =>
             set (fun state => set_channels (channels state ++ [data]) state);;
             mret {| error := None |}
         end)
        (fun err => mret {| error := Some (message err) |})
  end.

(** The state update of [addMessage]: the updater passed to [set]. *)
Definition addMessage_update (message : JsObj) (state : ChatState) : ChatState :=
  if existsb (fun m => strict_eq (prop m "id") (prop message "id")) (messages state)
  then state
  else set_messages (messages state ++ [message]) state.

Definition addMessage (message : JsObj) : M ChatState unit :=
  set (addMessage_update message).

(** *** [subscribeToMessages]

    The realtime channel, once built, lives outside the store; what the
    store keeps of it is the closure variable [isSubscribed], written by the
    status callback, and the channel the teardown closes over. *)
Record Subscription := {
  topic : string;
  isSubscribed : bool
}.

(** The value of [subscribeToMessages(channelId)] is its teardown, which
    closes over the subscription; in demo mode it is [() => {}]. *)
Definition subscribeToMessages (w : World) (channelId : string) : option Subscription :=
  match connected w with
  | None => None
  | Some _ => Some {| topic := "chat-messages-" +:+ channelId; isSubscribed := false |}
  end.

(** The callback given to [.subscribe]: [isSubscribed = status === 'SUBSCRIBED']. *)
Definition on_status (status : string) (h : Subscription) : Subscription :=
  {| topic := topic h; isSubscribed := String.eqb status "SUBSCRIBED" |}.

(** The INSERT handler: point read of the full row, then [addMessage]. *)
Definition on_insert (sb : Supabase) (new_id : string) : M ChatState unit :=
  resp ← await_single sb
            (single (eq "id" new_id (select message_columns (from "chat_messages"))));
  match data_of resp with
  | Some data => addMessage data
  | None => mret tt
  end.

(** The DELETE handler. *)
Definition on_delete (old_id : JsVal) : M ChatState unit :=
  set (fun state =>
         set_messages (filter (fun m => prop m "id" ≠ old_id) (messages state)) state).

(** Invoking the teardown returned by [subscribeToMessages]. *)
Definition teardown (h : option Subscription) : list Event :=
  match h with
  | None => []
  | Some h => if isSubscribed h then [EvRemoveChannel (topic h)] else []
  end.

(** The subscription after the transport reported the given statuses, in order. *)
Definition after_statuses (statuses : list string) (h : option Subscription)
  : option Subscription :=
  fold_left (fun h status => on_status status <$> h) statuses h.

(** *** The remaining actions of the chat store *)

Definition set_isLoading (b : bool) (s : ChatState) : ChatState :=
  {| channels := channels s; messages := messages s; currentChannel := currentChannel s;
     isLoading := b; isLoadingMessages := isLoadingMessages s |}.







(** [codeLanguage || null] for an optional string argument. *)
Definition or_null (s : option string) : JsVal :=
  match s with
  | Some s => or_else (JStr s) JNull
  | None => JNull
  end.

Definition send_message_query (channelId : string) (user_id : JsVal) (content : string)
    (messageType : string) (codeLanguage : option string) : Request :=
  insert_rows
    [list_to_map [("channel_id", JStr channelId); ("user_id", user_id);
                  ("content", JStr content); ("message_type", JStr messageType);
                  ("code_language", or_null codeLanguage)]]
    (from "chat_messages").

(** [sendMessage(channelId, content, messageType = 'text', codeLanguage)] *)
Definition sendMessage (w : World) (channelId content : string)
    (messageType : option string) (codeLanguage : option string) : M ChatState OpResult :=
  let messageType := default "text" messageType in
  match connected w with
  | None => mret {| error := None |}
  | Some sb =>
      try_catch
        (user ← await_getUser sb;
         match user with
         | None => mret {| error := Some "No autenticado" |}
         | Some user =>
             resp ← await_query sb
                      (send_message_query channelId (prop user "id") content
                                          messageType codeLanguage);
             match resp with
             | PgFailure error => mret {| error := Some (message error) |}
             | PgSuccess _ => mret {| error := None |}
             end
         end)
        (fun err => mret {| error := Some (message err) |})
  end.

Definition edit_message_query (w : World) (messageId content : string) : Request :=
  eq "id" messageId
    (update (list_to_map [("content", JStr content); ("edited_at", JStr (now_iso w))])
       (from "chat_messages")).

(** The updater [editMessage] passes to [set]. *)
Definition editMessage_update (w : World) (messageId content : string) (state : ChatState)
  : ChatState :=
  set_messages
    (map (fun m => if strict_eq (prop m "id") (JStr messageId)
                   then <["edited_at" := JStr (now_iso w)]> (<["content" := JStr content]> m)
                   else m)
         (messages state))
    state.

Definition editMessage (w : World) (messageId content : string) : M ChatState OpResult :=
  match connected w with
  | None => mret {| error := None |}
  | Some sb =>
      try_catch
        (resp ← await_query sb (edit_message_query w messageId content);
         match resp with
         | PgFailure error => mret {| error := Some (message error) |}
         | PgSuccess _ =>
             set (editMessage_update w messageId content);;
             mret {| error := None |}
         end)
        (fun err => mret {| error := Some (message err) |})
  end.

Definition delete_message_query (messageId : string) : Request :=
  eq "id" messageId (delete_rows (from "chat_messages")).

Definition deleteMessage (w : World) (messageId : string) : M ChatState OpResult :=
  match connected w with
  | None => mret {| error := None |}
  | Some sb =>
      try_catch
        (resp ← await_query sb (delete_message_query messageId);
         match resp with
         | PgFailure error => mret {| error := Some (message error) |}
         | PgSuccess _ =>
             set (fun state =>
                    set_messages
                      (filter (fun m => prop m "id" ≠ JStr messageId) (messages state))
                      state);;
             mret {| error := None |}
         end)
        (fun err => mret {| error := Some (message err) |})
  end.


End ChatStore.

(* ===================================================================== *)
(** ** The notes store (tasks and notes of the team) *)
(* ===================================================================== *)

Module NotesStore.

Record NotesFilter := {
  type : option string;
  status : option string;
  priority : option string;
  search : string
}.

(** [Partial<NotesState['filter']>]: each property may be left out. *)
Record PartialFilter := {
  p_type : option (option string);
  p_status : option (option string);
  p_priority : option (option string);
  p_search : option string
}.

Record NotesState := {
  notes : list JsObj;
  isLoading : bool;
  selectedNote : option JsObj;
  filter : NotesFilter
}.

Definition initial : NotesState :=
  {| notes := []; isLoading := false; selectedNote := None;
     filter := {| type := None; status := None; priority := None; search := "" |} |}.

Definition set_isLoading (b : bool) (s : NotesState) : NotesState :=
  {| notes := notes s; isLoading := b; selectedNote := selectedNote s; filter := filter s |}.

Definition set_notes (ns : list JsObj) (s : NotesState) : NotesState :=
  {| notes := ns; isLoading := isLoading s; selectedNote := selectedNote s; filter := filter s |}.

Definition set_selected (n : option JsObj) (s : NotesState) : NotesState :=
  {| notes := notes s; isLoading := isLoading s; selectedNote := n; filter := filter s |}.

Definition set_filter (f : NotesFilter) (s : NotesState) : NotesState :=
  {| notes := notes s; isLoading := isLoading s; selectedNote := selectedNote s; filter := f |}.

(** [if (filter.x) query = query.eq('x', filter.x)] for a [string | null]. *)
Definition when_set (v : option string) (f : string -> Request -> Request) (q : Request)
  : Request :=
  match v with
  | Some s => if String.eqb s "" then q else f s q
  | None => q
  end.

Definition notes_query (f : NotesFilter) : Request :=
  let query := order "created_at" false (select "*" (from "notes")) in
  let query := when_set (type f) (eq "type") query in
  let query := when_set (status f) (eq "status") query in
  let query := when_set (priority f) (eq "priority") query in
  let query := when_set (Some (search f)) (fun s => ilike "title" ("%" +:+ s +:+ "%")) query in
  query.

Definition fetchNotes (w : World) : M NotesState unit :=
  match connected w with
  | None => set (set_isLoading false)
  | Some sb =>
      set (set_isLoading true);;
      try_catch
        (st ← get;
         resp ← await_query sb (notes_query (filter st));
         match resp with
         | PgFailure error => throw error
         | PgSuccess data => set (fun s => set_isLoading false (set_notes (default [] data) s))
         end)
        (fun error =>
           console_error "Error fetching notes:" error;;
           set (set_isLoading false))
  end.

(** The demo-mode entity of [createNote]. *)
Definition demo_note (w : World) (note : JsObj) : JsObj :=
  list_to_map
    [("id", JStr (generateId w));
     ("title", or_else (prop note "title") (JStr ""));
     ("content", or_else (prop note "content") (JStr ""));
     ("type", or_else (prop note "type") (JStr "note"));
     ("status", or_else (prop note "status") (JStr "pending"));
     ("priority", or_else (prop note "priority") (JStr "medium"));
     ("project", prop note "project");
     ("created_by", or_else (prop note "created_by") (JStr "demo-user"));
     ("created_at", JStr (now_iso w));
     ("updated_at", JStr (now_iso w));
     ("tags", or_else (prop note "tags") (JArr []))].

(** [cleanedNote]: the blank relational fields become [null]. *)
Definition cleanedNote (note : JsObj) : JsObj :=
  <["project" := or_else (prop note "project") JNull]>
    (<["parent_id" := or_else (prop note "parent_id") JNull]>
       (<["assigned_to" := or_else (prop note "assigned_to") JNull]> note)).

Definition quote : string := String (ascii_of_nat 34) EmptyString.

Definition assigned_message (data : JsObj) : string :=
  "Te han asignado la tarea " +:+ quote +:+ to_string (prop data "title") +:+ quote.

(** The test guarding the notification of [createNote]. *)
Definition notifies_on_create (cleaned : JsObj) : bool :=
  truthy (prop cleaned "assigned_to")
  && negb (strict_eq (prop cleaned "assigned_to") (prop cleaned "created_by")).

(** The notification [createNote] sends to the assignee. *)
Definition created_notice (cleaned data : JsObj) (currentUser : option JsObj)
  : NotificationParams :=
  {| userId := prop cleaned "assigned_to";
     kind := "assignment";
     title := "Nueva tarea asignada";
     body := assigned_message data;
     noteId := prop data "id";
     personalNoteId := JUndefined;
     fromUserId := opt_prop currentUser "id" |}.

Definition insert_note_query (cleaned : JsObj) : Request :=
  single (select_written (insert_rows [cleaned] (from "notes"))).

Definition createNote (w : World) (note : JsObj) : M NotesState OpResult :=
  match connected w with
  | None =>
      let newNote := demo_note w note in
      set (fun state => set_notes (newNote :: notes state) state);;
      mret {| error := None |}
  | Some sb =>
      try_catch
        (let cleaned := cleanedNote note in
         resp ← await_single sb (insert_note_query cleaned);
         match resp with
         | PgFailure error => mret {| error := Some (message error) |}
         | PgSuccess data =>
             (if notifies_on_create cleaned
              then
                currentUser ← await_getUser sb;
                await_createNotification w (created_notice cleaned data currentUser);;
                mret tt
              else mret tt);;
             set (fun state => set_notes (data :: notes state) state);;
             mret {| error := None |}
         end)
        (fun err => mret {| error := Some (message err) |})
  end.

(** [cleanedUpdates]: the timestamp is refreshed, and a relational field is
    cleaned only when the caller's partial row has that property. *)
Definition clean_if_present (k : string) (updates cleaned : JsObj) : JsObj :=
  if has k updates then <[k := or_else (prop updates k) JNull]> cleaned else cleaned.

Definition cleanedUpdates (w : World) (updates : JsObj) : JsObj :=
  let cleaned := <["updated_at" := JStr (now_iso w)]> updates in
  let cleaned := clean_if_present "assigned_to" updates cleaned in
  let cleaned := clean_if_present "parent_id" updates cleaned in
  let cleaned := clean_if_present "project" updates cleaned in
  cleaned.

(** The point read of the stored row made before the update. *)
Definition current_note_query (id : string) : Request :=
  single (eq "id" id (select "assigned_to, title" (from "notes"))).

Definition update_note_query (id : string) (cleaned : JsObj) : Request :=
  single (select_written (eq "id" id (update cleaned (from "notes")))).

(** The test guarding the notification of [updateNote]; [currentNote] is
    the row read before the update, [null] when that read gave no data. *)
Definition notifies_on_update (cleaned : JsObj) (currentNote : option JsObj) : bool :=
  truthy (prop cleaned "assigned_to")
  && negb (strict_eq (prop cleaned "assigned_to") (opt_prop currentNote "assigned_to")).

(** The notification [updateNote] sends to the new assignee. *)
Definition reassigned_notice (id : string) (cleaned data : JsObj)
    (currentUser : option JsObj) : NotificationParams :=
  {| userId := prop cleaned "assigned_to";
     kind := "assignment";
     title := "Tarea asignada";
     body := assigned_message data;
     noteId := JStr id;
     personalNoteId := JUndefined;
     fromUserId := opt_prop currentUser "id" |}.

(** The updater [updateNote] passes to [set] once the backend returned [data]. *)
Definition updateNote_update (id : string) (data : JsObj) (state : NotesState) : NotesState :=
  set_selected
    (if strict_eq (opt_prop (selectedNote state) "id") (JStr id)
     then Some data else selectedNote state)
    (set_notes
       (map (fun n => if strict_eq (prop n "id") (JStr id) then data else n) (notes state))
       state).

Definition updateNote (w : World) (id : string) (updates : JsObj) : M NotesState OpResult :=
  match connected w with
  | None =>
      set (fun state =>
             set_selected
               (if strict_eq (opt_prop (selectedNote state) "id") (JStr id)
                then (fun sel => spread sel updates) <$> selectedNote state
                else selectedNote state)
               (set_notes
                  (map (fun n =>
                          if strict_eq (prop n "id") (JStr id)
                          then <["updated_at" := JStr (now_iso w)]> (spread n updates)
                          else n)
                       (notes state))
                  state));;
      mret {| error := None |}
  | Some sb =>
      try_catch
        (let cleaned := cleanedUpdates w updates in
         current ← await_single sb (current_note_query id);
         let currentNote := data_of current in
         resp ← await_single sb (update_note_query id cleaned);
         match resp with
         | PgFailure error => mret {| error := Some (message error) |}
         | PgSuccess data =>
             (if notifies_on_update cleaned currentNote
              then
                currentUser ← await_getUser sb;
                await_createNotification w (reassigned_notice id cleaned data currentUser);;
                mret tt
              else mret tt);;
             set (updateNote_update id data);;
             mret {| error := None |}
         end)
        (fun err => mret {| error := Some (message err) |})
  end.

(** The updater both branches of [deleteNote] pass to [set]. *)
Definition deleteNote_update (id : string) (state : NotesState) : NotesState :=
  set_selected
    (if strict_eq (opt_prop (selectedNote state) "id") (JStr id)
     then None else selectedNote state)
    (set_notes (base.filter (fun n => prop n "id" ≠ JStr id) (notes state)) state).

Definition delete_note_query (id : string) : Request :=
  eq "id" id (delete_rows (from "notes")).

Definition deleteNote (w : World) (id : string) : M NotesState OpResult :=
  match connected w with
  | None =>
      set (deleteNote_update id);;
      mret {| error := None |}
  | Some sb =>
      try_catch
        (resp ← await_query sb (delete_note_query id);
         match resp with
         | PgFailure error => mret {| error := Some (message error) |}
         | PgSuccess _ =>
             set (deleteNote_update id);;
             mret {| error := None |}
         end)
        (fun err => mret {| error := Some (message err) |})
  end.

Definition setSelectedNote (note : option JsObj) : M NotesState unit :=
  set (set_selected note).

Definition merge_filter (f : NotesFilter) (p : PartialFilter) : NotesFilter :=
  {| type := default (type f) (p_type p);
     status := default (status f) (p_status p);
     priority := default (priority f) (p_priority p);
     search := default (search f) (p_search p) |}.

Definition setFilter (w : World) (p : PartialFilter) : M NotesState unit :=
  set (fun state => set_filter (merge_filter (filter state) p) state);;
  fetchNotes w.

End NotesStore.

(* ===================================================================== *)
(** ** src/store/personalNotesStore.ts *)
(* ===================================================================== *)

Module PersonalNotesStore.

Record PersonalNotesState := {
  notes : list JsObj;
  sharedWithMe : list JsObj;
  isLoading : bool
}.

(** [{ error: string | null; note?: PersonalNote }] *)
Record CreateResult := {
  error : option string;
  note : option JsObj
}.

Definition set_isLoading (b : bool) (s : PersonalNotesState) : PersonalNotesState :=
  {| notes := notes s; sharedWithMe := sharedWithMe s; isLoading := b |}.

Definition set_notes (ns : list JsObj) (s : PersonalNotesState) : PersonalNotesState :=
  {| notes := ns; sharedWithMe := sharedWithMe s; isLoading := isLoading s |}.

Definition own_notes_query : Request :=
  order "updated_at" false
    (select "*, owner:profiles!owner_id(id, full_name, email, avatar_url)"
       (from "personal_notes")).

Definition fetchNotes (w : World) : M PersonalNotesState unit :=
  match connected w with
  | None => set (set_isLoading false)
  | Some sb =>
      set (set_isLoading true);;
      try_catch
        (resp ← await_query sb own_notes_query;
         match resp with
         | PgFailure ownError => throw ownError
         | PgSuccess ownNotes =>
             user ← await_getUser sb;
             let userId := opt_prop user "id" in
             let myNotes :=
               default [] (base.filter (fun n => prop n "owner_id" = userId) <$> ownNotes) in
             let sharedNotes :=
               default [] (base.filter (fun n => prop n "owner_id" ≠ userId) <$> ownNotes) in
             set (fun _ => {| notes := myNotes; sharedWithMe := sharedNotes;
                              isLoading := false |})
         end)
        (fun error =>
           console_error "Error fetching personal notes:" error;;
           set (set_isLoading false))
  end.

Definition demo_note (w : World) (title content : string) : JsObj :=
  list_to_map
    [("id", JStr (generateId w));
     ("title", JStr title);
     ("content", JStr content);
     ("owner_id", JStr "demo-user");
     ("is_shared", JBool false);
     ("created_at", JStr (now_iso w));
     ("updated_at", JStr (now_iso w))].

Definition insert_note_query (title content : string) (userId : JsVal) : Request :=
  single (select_written (insert_rows
    [list_to_map [("title", JStr title); ("content", JStr content); ("owner_id", userId)]]
    (from "personal_notes"))).

(** [createNote(title, content = '')] *)
Definition createNote (w : World) (title : string) (content : option string)
  : M PersonalNotesState CreateResult :=
  let content := default "" content in
  match connected w with
  | None =>
      let newNote := demo_note w title content in
      set (fun state => set_notes (newNote :: notes state) state);;
      mret {| error := None; note := Some newNote |}
  | Some sb =>
      try_catch
        (user ← await_getUser sb;
         let userId := opt_prop user "id" in
         resp ← await_single sb (insert_note_query title content userId);
         match resp with
         | PgFailure error => mret {| error := Some (message error); note := None |}
         | PgSuccess data =>
             set (fun state => set_notes (data :: notes state) state);;
             mret {| error := None; note := Some data |}
         end)
        (fun err => mret {| error := Some (message err); note := None |})
  end.

Definition deleteNote_update (id : string) (state : PersonalNotesState)
  : PersonalNotesState :=
  set_notes (base.filter (fun n => prop n "id" ≠ JStr id) (notes state)) state.

Definition delete_note_query (id : string) : Request :=
  eq "id" id (delete_rows (from "personal_notes")).

Definition deleteNote (w : World) (id : string) : M PersonalNotesState OpResult :=
  match connected w with
  | None =>
      set (deleteNote_update id);;
      mret {| Runtime.error := None |}
  | Some sb =>
      try_catch
        (resp ← await_query sb (delete_note_query id);
         match resp with
         | PgFailure error => mret {| Runtime.error := Some (message error) |}
         | PgSuccess _ =>
             set (deleteNote_update id);;
             mret {| Runtime.error := None |}
         end)
        (fun err => mret {| Runtime.error := Some (message err) |})
  end.

Definition shares_query (noteId : string) : Request :=
  eq "note_id" noteId
    (select "*, user:profiles!shared_with(id, full_name, email, avatar_url)"
       (from "personal_note_shares")).

Definition getShares (w : World) (noteId : string) : M PersonalNotesState (list JsObj) :=
  match connected w with
  | None => mret []
  | Some sb =>
      try_catch
        (resp ← await_query sb (shares_query noteId);
         mret (default [] (mjoin (data_of resp))))
        (fun _ => mret [])
  end.

(** *** [updateNote] and [unshareNote] *)

Definition touch (w : World) (id : string) (updates : JsObj) (n : JsObj) : JsObj :=
  if strict_eq (prop n "id") (JStr id)
  then <["updated_at" := JStr (now_iso w)]> (spread n updates)
  else n.

(** The updater both branches of [updateNote] pass to [set]. *)
Definition updateNote_update (w : World) (id : string) (updates : JsObj)
    (state : PersonalNotesState) : PersonalNotesState :=
  {| notes := map (touch w id updates) (notes state);
     sharedWithMe := map (touch w id updates) (sharedWithMe state);
     isLoading := isLoading state |}.

Definition update_note_query (w : World) (id : string) (updates : JsObj) : Request :=
  eq "id" id (update (<["updated_at" := JStr (now_iso w)]> updates) (from "personal_notes")).

Definition updateNote (w : World) (id : string) (updates : JsObj)
  : M PersonalNotesState OpResult :=
  match connected w with
  | None =>
      set (updateNote_update w id updates);;
      mret {| Runtime.error := None |}
  | Some sb =>
      try_catch
        (resp ← await_query sb (update_note_query w id updates);
         match resp with
         | PgFailure error => mret {| Runtime.error := Some (message error) |}
         | PgSuccess _ =>
             set (updateNote_update w id updates);;
             mret {| Runtime.error := None |}
         end)
        (fun err => mret {| Runtime.error := Some (message err) |})
  end.

Definition unshare_query (noteId userId : string) : Request :=
  eq "shared_with" userId (eq "note_id" noteId (delete_rows (from "personal_note_shares"))).

Definition remaining_shares_query (noteId : string) : Request :=
  eq "note_id" noteId (select "id" (from "personal_note_shares")).

Definition mark_unshared_query (noteId : string) : Request :=
  eq "id" noteId (update (list_to_map [("is_shared", JBool false)]) (from "personal_notes")).

(** [!remainingShares?.length] *)
Definition none_remaining (remainingShares : option (list JsObj)) : bool :=
  match remainingShares with
  | Some (_ :: _) => false
  | _ => true
  end.

Definition mark_unshared (noteId : string) (state : PersonalNotesState)
  : PersonalNotesState :=
  set_notes
    (map (fun n => if strict_eq (prop n "id") (JStr noteId)
                   then <["is_shared" := JBool false]> n else n)
         (notes state))
    state.

Definition unshareNote (w : World) (noteId userId : string)
  : M PersonalNotesState OpResult :=
  match connected w with
  | None => mret {| Runtime.error := None |}
  | Some sb =>
      try_catch
        (resp ← await_query sb (unshare_query noteId userId);
         match resp with
         | PgFailure error => mret {| Runtime.error := Some (message error) |}
         | PgSuccess _ =>
             remaining ← await_query sb (remaining_shares_query noteId);
             (if none_remaining (mjoin (data_of remaining))
              then
                await_query sb (mark_unshared_query noteId);;
                set (mark_unshared noteId)
              else mret tt);;
             mret {| Runtime.error := None |}
         end)
        (fun err => mret {| Runtime.error := Some (message err) |})
  end.

End PersonalNotesStore.

(* ===================================================================== *)
(** ** String helpers of the client-side filters *)
(* ===================================================================== *)

Module Text.

(** [toLowerCase] on the ASCII letters; other bytes are left as they are. *)
Definition lower_ascii (c : ascii) : ascii :=
  let n := nat_of_ascii c in
  if (65 <=? n)%nat && (n <=? 90)%nat then ascii_of_nat (n + 32) else c.

Fixpoint toLowerCase (s : string) : string :=
  match s with
  | EmptyString => EmptyString
  | String c s' => String (lower_ascii c) (toLowerCase s')
  end.

(** [s.includes(needle)] *)
Fixpoint includes (s needle : string) : bool :=
  String.prefix needle s
  || match s with
     | EmptyString => false
     | String _ s' => includes s' needle
     end.

(** [s?.toLowerCase().includes(q)] read as a condition: [undefined] is falsy. *)
Definition opt_lower_includes (s : option string) (q : string) : bool :=
  match s with
  | Some s => includes (toLowerCase s) q
  | None => false
  end.

(** The white space and line terminators [trim] strips. A string is held
    here as the bytes of its UTF-8 encoding, so a code point is one, two or
    three bytes: the ASCII ones (tab to carriage return, space), then
    U+00A0, then U+1680, U+2000 to U+200A, U+2028, U+2029, U+202F, U+205F,
    U+3000 and U+FEFF. *)
Definition is_whitespace (c : ascii) : bool :=
  let n := nat_of_ascii c in
  (n =? 32)%nat || ((9 <=? n)%nat && (n <=? 13)%nat).

Definition is_whitespace2 (c1 c2 : ascii) : bool :=
  (nat_of_ascii c1 =? 194)%nat && (nat_of_ascii c2 =? 160)%nat.

Definition is_whitespace3 (c1 c2 c3 : ascii) : bool :=
  let n1 := nat_of_ascii c1 in
  let n2 := nat_of_ascii c2 in
  let n3 := nat_of_ascii c3 in
  ((n1 =? 225)%nat && ((n2 =? 154)%nat && (n3 =? 128)%nat))
  || ((n1 =? 226)%nat
      && (((n2 =? 128)%nat
           && (((128 <=? n3)%nat && (n3 <=? 138)%nat)
               || (n3 =? 168)%nat || (n3 =? 169)%nat || (n3 =? 175)%nat))
          || ((n2 =? 129)%nat && (n3 =? 159)%nat)))
  || ((n1 =? 227)%nat && ((n2 =? 128)%nat && (n3 =? 128)%nat))
  || ((n1 =? 239)%nat && ((n2 =? 187)%nat && (n3 =? 191)%nat)).

(** [!s.trim()]: nothing is left once the white space is trimmed. *)
Fixpoint blank (s : string) : bool :=
  match s with
  | EmptyString => true
  | String c1 s1 =>
      if is_whitespace c1 then blank s1
      else
        match s1 with
        | EmptyString => false
        | String c2 s2 =>
            if is_whitespace2 c1 c2 then blank s2
            else
              match s2 with
              | EmptyString => false
              | String c3 s3 => is_whitespace3 c1 c2 c3 && blank s3
              end
        end
  end.



(** Truthiness of a [string | null] state variable. *)
Definition nonempty (s : option string) : bool :=
  match s with
  | Some s => negb (String.eqb s "")
  | None => false
  end.

End Text.

(* ===================================================================== *)
(** ** Calendar dates, as the expenses page uses them through date-fns *)
(* ===================================================================== *)

Module Dates.

Local Open Scope Z_scope.

(** A valid [Date], read in the local time zone: [month] counts from 0 as
    [getMonth()] does, [ms] is the time of day in milliseconds. *)
Record Date := {
  year : Z;
  month : Z;
  day : Z;
  ms : Z
}.

Definition is_leap (y : Z) : bool :=
  ((y mod 4 =? 0) && negb (y mod 100 =? 0)) || (y mod 400 =? 0).

Definition days_in_month (y m : Z) : Z :=
  if m =? 1 then (if is_leap y then 29 else 28)
  else if (m =? 3) || (m =? 5) || (m =? 8) || (m =? 10) then 30
  else 31.

(** Days from 1970-01-01 to the civil date [y]-[m+1]-[d]. *)
Definition days_from_civil (y m d : Z) : Z :=
  let m1 := m + 1 in
  let y' := if m1 <=? 2 then y - 1 else y in
  let era := y' / 400 in
  let yoe := y' - era * 400 in
  let doy := (153 * (if 2 <? m1 then m1 - 3 else m1 + 9) + 2) / 5 + d - 1 in
  let doe := yoe * 365 + yoe / 4 - yoe / 100 + doy in
  era * 146097 + doe - 719468.

(** [getTime()], up to the constant offset of the time zone. *)
Definition getTime (d : Date) : Z :=
  days_from_civil (year d) (month d) (day d) * 86400000 + ms d.

Definition digit (c : ascii) : option Z :=
  let n := nat_of_ascii c in
  if (48 <=? n)%nat && (n <=? 57)%nat then Some (Z.of_nat (n - 48)) else None.

Fixpoint digits (acc : Z) (cs : list ascii) : option Z :=
  match cs with
  | [] => Some acc
  | c :: cs' =>
      match digit c with
      | Some v => digits (acc * 10 + v) cs'
      | None => None
      end
  end.



(** [parseISO] on the calendar dates the page stores: a string of the form
    [YYYY-MM-DD] is the local midnight of that day when the month and the
    day exist, and an invalid date, here [None], when they do not. The
    library reads further ISO forms (time stamps, year and month alone,
    the basic, week and ordinal forms); those are outside this model, whose
    answer [None] for them says nothing of the library: what is stated
    below about the date a string parses to is stated for strings of the
    form [calendar_form]. *)
Definition parseISO (s : string) : option Date :=
  match list_ascii_of_string s with
  | [y1; y2; y3; y4; sep1; m1; m2; sep2; d1; d2] =>
      if Ascii.eqb sep1 "-" && Ascii.eqb sep2 "-" then
        match digits 0 [y1; y2; y3; y4], digits 0 [m1; m2], digits 0 [d1; d2] with
        | Some y, Some m, Some d =>
            if (1 <=? m) && (m <=? 12) && (1 <=? d) && (d <=? days_in_month y (m - 1))
            then Some {| year := y; month := m - 1; day := d; ms := 0 |}
            else None
        | _, _, _ => None
        end
      else None
  | _ => None
  end.

Definition startOfMonth (d : Date) : Date :=
  {| year := year d; month := month d; day := 1; ms := 0 |}.

Definition endOfMonth (d : Date) : Date :=
  {| year := year d; month := month d; day := days_in_month (year d) (month d);
     ms := 86399999 |}.

(** [isWithinInterval(date, { start, end })]; an invalid [date] is in no
    interval. *)
Definition isWithinInterval (date : option Date) (start end_ : Date) : bool :=
  match date with
  | Some d => (getTime start <=? getTime d) && (getTime d <=? getTime end_)
  | None => false
  end.

(** Months counted from year 0: the month [k] is month [k mod 12] of year
    [k / 12]. *)
Definition month_index (d : Date) : Z := 12 * year d + month d.


End Dates.

(* ===================================================================== *)
(** ** src/pages/Expenses.tsx: the filter of the expenses list *)
(* ===================================================================== *)

Module Expenses.

Import Text Dates.

(** The properties of an expense the filter reads. *)
Record Expense := {
  id : string;
  description : string;
  vendor : option string;
  category_id : option string;
  status : string;
  expense_date : string;
  amount : Z
}.

Inductive DateFilter := all | month | custom.

(** The filter state of the page. *)
Record FilterState := {
  searchTerm : string;
  categoryFilter : option string;
  statusFilter : option string;
  dateFilter : DateFilter
}.

(** The predicate passed to [expenses.filter]; [now] is what [new Date()]
    reads from the clock while the predicate runs. *)
Definition keeps (now : Date) (f : FilterState) (expense : Expense) : bool :=
  if negb (String.eqb (searchTerm f) "")
     && (let search := toLowerCase (searchTerm f) in
         negb (includes (toLowerCase (description expense)) search)
         && negb (opt_lower_includes (vendor expense) search))
  then false
  else if nonempty (categoryFilter f)
          && negb (bool_decide (category_id expense = categoryFilter f))
  then false
  else if nonempty (statusFilter f)
          && negb (bool_decide (Some (status expense) = statusFilter f))
  then false
  else if match dateFilter f with
          | month =>
              let expenseDate := parseISO (expense_date expense) in
              let monthStart := startOfMonth now in
              let monthEnd := endOfMonth now in
              negb (isWithinInterval expenseDate monthStart monthEnd)
          | _ => false
          end
  then false
  else true.

Definition filteredExpenses (now : Date) (f : FilterState) (expenses : list Expense)
  : list Expense :=
  List.filter (keeps now f) expenses.

(** [setSearchTerm(q)], on the filter state. *)
Definition setSearchTerm (q : string) (f : FilterState) : FilterState :=
  {| searchTerm := q; categoryFilter := categoryFilter f;
     statusFilter := statusFilter f; dateFilter := dateFilter f |}.

End Expenses.

(* ===================================================================== *)
(** ** src/components/GlobalSearch.tsx: [performSearch] *)
(* ===================================================================== *)

Module GlobalSearch.

Import Text.

(** The properties of the cached entities the search reads. *)
Record Note := { note_id : string; note_title : string; note_content : option string;
                 note_type : string }.
Record PersonalNote := { pn_id : string; pn_title : string; pn_content : option string }.
Record Meeting := { meeting_id : string; meeting_title : string;
                    meeting_description : option string; meeting_status : string }.
Record Profile := { member_id : string; full_name : option string; email : option string }.

Record SearchResult := {
  id : string;
  title : option string;
  subtitle : option string;
  type : string;
  path : string
}.

(** The caches the callback closes over. *)
Record Caches := {
  notes : list Note;
  personalNotes : list PersonalNote;
  meetings : list Meeting;
  members : list Profile
}.

(** The component state the callback writes. *)
Record SearchState := {
  results : list SearchResult;
  selectedIndex : Z;
  isSearching : bool
}.

Definition note_result (note : Note) : SearchResult :=
  {| id := note_id note;
     title := Some (note_title note);
     subtitle := Some (if String.eqb (note_type note) "task" then "Tarea"
                       else if String.eqb (note_type note) "bug" then "Bug"
                       else if String.eqb (note_type note) "feature" then "Feature"
                       else "Nota");
     type := note_type note;
     path := "/notes/" +:+ note_id note |}.

Definition personal_result (note : PersonalNote) : SearchResult :=
  {| id := pn_id note; title := Some (pn_title note); subtitle := Some "Notepad Personal";
     type := "notepad"; path := "/notepad" |}.

Definition meeting_result (meeting : Meeting) : SearchResult :=
  {| id := meeting_id meeting;
     title := Some (meeting_title meeting);
     subtitle := Some ("Reunión - " +:+
                       (if String.eqb (meeting_status meeting) "scheduled" then "Programada"
                        else if String.eqb (meeting_status meeting) "in_progress" then "En curso"
                        else "Finalizada"));
     type := "meeting"; path := "/meetings" |}.

Definition member_result (member : Profile) : SearchResult :=
  {| id := member_id member;
     title := if nonempty (full_name member) then full_name member else email member;
     subtitle := email member;
     type := "user"; path := "/team" |}.

(** The [searchResults] array once the four [forEach] loops have run. *)
Definition searchResults (c : Caches) (q : string) : list SearchResult :=
  map note_result
      (List.filter (fun note => includes (toLowerCase (note_title note)) q
                                || opt_lower_includes (note_content note) q) (notes c))
  ++ map personal_result
      (List.filter (fun note => includes (toLowerCase (pn_title note)) q
                                || opt_lower_includes (pn_content note) q) (personalNotes c))
  ++ map meeting_result
      (List.filter (fun meeting => includes (toLowerCase (meeting_title meeting)) q
                                || opt_lower_includes (meeting_description meeting) q)
                   (meetings c))
  ++ map member_result
      (List.filter (fun member => opt_lower_includes (full_name member) q
                                || opt_lower_includes (email member) q) (members c)).

Definition performSearch (c : Caches) (searchQuery : string) (st : SearchState)
  : SearchState :=
  if blank searchQuery
  then {| results := []; selectedIndex := selectedIndex st; isSearching := isSearching st |}
  else
    let q := toLowerCase searchQuery in
    {| results := take 10 (searchResults c q); selectedIndex := 0; isSearching := false |}.



(** The updater of [selectedIndex] in [handleKeyDown], for the arrow keys;
    [count] is [results.length], and the index is a JavaScript number. *)
Definition arrow (key : string) (count : nat) (prev : Z) : Z :=
  if String.eqb key "ArrowDown" then Z.min (prev + 1) (Z.of_nat count - 1)
  else if String.eqb key "ArrowUp" then Z.max (prev - 1) 0
  else prev.

(** [results[selectedIndex]], read when Enter is pressed. *)
Definition selected_result (results : list SearchResult) (index : Z) : option SearchResult :=
  if (index <? 0)%Z then None else results !! Z.to_nat index.

End GlobalSearch.

(* ===================================================================== *)
(** ** Observations on caches and traces *)
(* ===================================================================== *)

(** The identifiers of the entries of a cache, in cache order. *)
Definition ids (cache : list JsObj) : list JsVal := map (fun m => prop m "id") cache.

(** The notifications a run handed to [createNotification], in order. *)
Definition notifications (t : list Event) : list NotificationParams :=
  omap (fun ev => match ev with EvNotify p => Some p | _ => None end) t.

(** The requests a run sent to the backend, in order. *)
Definition requests (t : list Event) : list Request :=
  omap (fun ev => match ev with EvQuery q => Some q | _ => None end) t.

(** The rows and partial rows a run submitted for writing, in order. *)
Definition submitted (t : list Event) : list JsObj :=
  mjoin (map (fun q => match verb q with
                       | Insert rows | Upsert rows => rows
                       | Update payload => [payload]
                       | _ => []
                       end) (requests t)).

(** The three optional relational fields of a note. *)
Definition relational_fields : list string := ["assigned_to"; "parent_id"; "project"].

(** The caller left the field out, or gave the empty string. *)
Definition left_blank (o : JsObj) (k : string) : Prop :=
  o !! k = None ∨ o !! k = Some (JStr "").

(** A list-shaped read that fails: an error response or a rejection. *)
Definition read_fails (sb : Supabase) (q : Request) (e : JsError) : Prop :=
  run sb q = Resolved (PgFailure e) ∨ run sb q = Rejected e.

(** The removal [q] goes through: there is no backend to refuse it (demo
    mode), or the backend answers it without an error. *)
Definition removal_accepted (w : World) (q : Request) : Prop :=
  connected w = None
  ∨ ∃ sb data, connected w = Some sb ∧ run sb q = Resolved (PgSuccess data).

(** The removal [q] is refused by the backend with the error [e]. *)
Definition removal_refused (w : World) (q : Request) (e : JsError) : Prop :=
  ∃ sb, connected w = Some sb ∧ read_fails sb q e.

(** The selected-entity reference once [id] has been deleted. *)
Definition selection_after_delete (id : string) (selected : option JsObj) : option JsObj :=
  if decide (opt_prop selected "id" = JStr id) then None else selected.

(** A finished mutating action reported its failure cleanly: it returned a
    result instead of throwing, and if the result carries an error the
    store is exactly the store it started from. *)
Definition fails_cleanly {S : Type} (r : Outcome OpResult * S * list Event) (st : S) : Prop :=
  ∃ res, outcome r = Returned res ∧ (error res ≠ None → final r = st).

(** The cache [after] has the entries of [before], position by position,
    except that entries with the identifier [id] may have been rewritten. *)
Definition same_but_for (id : string) (before after : list JsObj) : Prop :=
  Forall2 (λ b a, prop b "id" ≠ JStr id → a = b) before after.

(* ===================================================================== *)
(** ** Concrete worlds and states used in the examples *)
(* ===================================================================== *)

Module Scenarios.

(** A backend that accepts every request and returns the row [row] from
    every single-row request and [rows] from every list request. *)
Definition backend (row : JsObj) (rows : list JsObj) : Supabase :=
  {| run := fun _ => Resolved (PgSuccess (Some rows));
     run_single := fun _ => Resolved (PgSuccess row);
     auth_getUser := Resolved (Some (list_to_map [("id", JStr "alice")])) |}.

(** A backend whose every request fails with an error response. *)
Definition failing_backend (msg : string) : Supabase :=
  {| run := fun _ => Resolved (PgFailure {| message := msg |});
     run_single := fun _ => Resolved (PgFailure {| message := msg |});
     auth_getUser := Resolved None |}.

Definition world (sb : option Supabase)
    (notify : NotificationParams -> Awaited (option JsError)) : World :=
  {| isSupabaseConfigured := true;
     supabase := sb;
     createNotification := notify;
     clock_iso := fun _ => "2024-01-20T10:00:00.000Z";
     date_now := "1705744800000";
     random_suffix := "k3j9x0q1z" |}.

Definition notify_ok : NotificationParams -> Awaited (option JsError) :=
  fun _ => Resolved None.

Definition notify_error : NotificationParams -> Awaited (option JsError) :=
  fun _ => Resolved (Some {| message := "permission denied for table notifications" |}).

Definition notify_throws : NotificationParams -> Awaited (option JsError) :=
  fun _ => Rejected {| message := "Failed to fetch" |}.

Definition demo_world : World := world None notify_ok.

Definition msg_a : JsObj := list_to_map [("id", JStr "m-1"); ("content", JStr "hola")].
Definition msg_a_again : JsObj := list_to_map [("id", JStr "m-1"); ("content", JStr "hola (editado)")].
Definition msg_b : JsObj := list_to_map [("id", JStr "m-2"); ("content", JStr "buenas")].

Definition chat_with (cs ms : list JsObj) : ChatStore.ChatState :=
  {| ChatStore.channels := cs; ChatStore.messages := ms; ChatStore.currentChannel := None;
     ChatStore.isLoading := false; ChatStore.isLoadingMessages := false |}.

Definition general : JsObj := list_to_map [("id", JStr "c-1"); ("name", JStr "general")].
Definition random : JsObj := list_to_map [("id", JStr "c-2"); ("name", JStr "random")].

Definition task_bob : JsObj :=
  list_to_map [("id", JStr "n-1"); ("title", JStr "Informe"); ("assigned_to", JStr "bob");
               ("created_by", JStr "alice")].

Definition task_carol : JsObj :=
  list_to_map [("id", JStr "n-1"); ("title", JStr "Informe"); ("assigned_to", JStr "carol");
               ("created_by", JStr "alice")].

Definition notes_with (ns : list JsObj) (sel : option JsObj) : NotesStore.NotesState :=
  {| NotesStore.notes := ns; NotesStore.isLoading := false; NotesStore.selectedNote := sel;
     NotesStore.filter := NotesStore.filter NotesStore.initial |}.

Definition personal_with (ns : list JsObj) : PersonalNotesStore.PersonalNotesState :=
  {| PersonalNotesStore.notes := ns; PersonalNotesStore.sharedWithMe := [];
     PersonalNotesStore.isLoading := false |}.

(** A backend holding the single note [task_bob], which has no status: an
    unfiltered read returns it, a read constrained by the filter does not. *)
Definition backend_one_note : Supabase :=
  {| run := fun q => match constraints q with
                     | [] => Resolved (PgSuccess (Some [task_bob]))
                     | _ => Resolved (PgSuccess (Some []))
                     end;
     run_single := fun _ => Resolved (PgSuccess task_bob);
     auth_getUser := Resolved None |}.

(** A backend holding the note [task_bob] and accepting its reassignment to
    carol: reads return the stored row, writes return the row as written. *)
Definition backend_reassigning : Supabase :=
  {| run := fun _ => Resolved (PgSuccess (Some [task_bob]));
     run_single := fun q => match verb q with
                            | Select _ => Resolved (PgSuccess task_bob)
                            | _ => Resolved (PgSuccess task_carol)
                            end;
     auth_getUser := Resolved (Some (list_to_map [("id", JStr "alice")])) |}.



Definition only_done : NotesStore.PartialFilter :=
  {| NotesStore.p_type := None; NotesStore.p_status := Some (Some "done");
     NotesStore.p_priority := None; NotesStore.p_search := None |}.

Definition task_unassigned : JsObj :=
  list_to_map [("title", JStr "Informe"); ("assigned_to", JStr "");
               ("created_by", JStr "alice")].

Definition task_own : JsObj :=
  list_to_map [("title", JStr "Informe"); ("assigned_to", JStr "alice");
               ("created_by", JStr "alice")].

Definition mine : JsObj :=
  list_to_map [("id", JStr "p-1"); ("title", JStr "Ideas"); ("owner_id", JStr "alice");
               ("is_shared", JBool true)].

Definition shared_by_bob : JsObj :=
  list_to_map [("id", JStr "p-2"); ("title", JStr "Compras"); ("owner_id", JStr "bob");
               ("is_shared", JBool true)].

Definition connected_world : World := world (Some backend_one_note) notify_ok.

(** The notes store after the list was fetched, [task_bob] was selected, and
    the filter was then narrowed to the status [done]. *)
Definition after_filtering : NotesStore.NotesState :=
  final (NotesStore.setFilter connected_world only_done
    (final (NotesStore.setSelectedNote (Some task_bob)
      (final (NotesStore.fetchNotes connected_world NotesStore.initial))))).

Definition jan20 : Dates.Date :=
  {| Dates.year := 2024; Dates.month := 0; Dates.day := 20; Dates.ms := 36000000 |}.

Definition feb02 : Dates.Date :=
  {| Dates.year := 2024; Dates.month := 1; Dates.day := 2; Dates.ms := 36000000 |}.

Definition hosting : Expenses.Expense :=
  {| Expenses.id := "e-1"; Expenses.description := "Hosting"; Expenses.vendor := Some "Vercel";
     Expenses.category_id := None; Expenses.status := "paid";
     Expenses.expense_date := "2024-01-15"; Expenses.amount := 80000 |}.


Definition caches : GlobalSearch.Caches :=
  {| GlobalSearch.notes :=
       [{| GlobalSearch.note_id := "n-1"; GlobalSearch.note_title := "Informe mensual";
           GlobalSearch.note_content := None; GlobalSearch.note_type := "task" |}];
     GlobalSearch.personalNotes := [];
     GlobalSearch.meetings := [];
     GlobalSearch.members :=
       [{| GlobalSearch.member_id := "u-1"; GlobalSearch.full_name := None;
           GlobalSearch.email := Some "informes@kor4soft.com" |}] |}.


Definition idle : GlobalSearch.SearchState :=
  {| GlobalSearch.results := []; GlobalSearch.selectedIndex := 0;
     GlobalSearch.isSearching := false |}.

(** The filter state the expenses page starts with. *)
Definition page_filter : Expenses.FilterState :=
  {| Expenses.searchTerm := ""; Expenses.categoryFilter := None;
     Expenses.statusFilter := None; Expenses.dateFilter := Expenses.month |}.

End Scenarios.

(* ===================================================================== *)
(** ** Facts about the action monad *)
(* ===================================================================== *)

Section MonadFacts.
Context {S A B : Type}.

Lemma run_bind (m : M S A) (k : A -> M S B) (st : S) :
  (m ≫= k) st =
  match m st with
  | (Returned a, st1, t1) => let '(o, st2, t2) := k a st1 in (o, st2, t1 ++ t2)
  | (Thrown e, st1, t1) => (Thrown e, st1, t1)
  end.
Proof. reflexivity. Qed.

Lemma run_set_then (f : S -> S) (k : M S B) (st : S) :
  (set f ;; k) st = k (f st).
Proof.
  unfold mbind, M_bind, bind, set. destruct (k (f st)) as [[o st2] t2]. reflexivity.
Qed.

End MonadFacts.

(** Unfolds the monad of a store action, leaving the awaited answers. *)
Ltac unfold_action :=
  cbv [mbind mret M_bind M_ret bind ret try_catch throw get set emit await
       await_query await_single await_getUser await_createNotification console_error
       outcome final trace fst snd].

(** The same, and splits on every awaited answer. *)
Ltac run_action :=
  unfold_action;
  repeat match goal with
         | |- context [match ?x with _ => _ end] =>
             lazymatch x with
             | run _ _ => destruct x as [[?|?]|?] eqn:?
             | run_single _ _ => destruct x as [[?|?]|?] eqn:?
             | auth_getUser _ => destruct x as [?|?] eqn:?
             | createNotification _ _ => destruct x as [?|?] eqn:?
             end
         end.

(* ===================================================================== *)
(** ** The realtime reconciler of the chat store *)
(* ===================================================================== *)

Section Reconciler.
Import ChatStore.

Lemma id_present_existsb (message : JsObj) (cache : list JsObj) :
  existsb (fun m => strict_eq (prop m "id") (prop message "id")) cache = true
  ↔ prop message "id" ∈ ids cache.
Proof.
  unfold ids, strict_eq. rewrite existsb_exists, list_elem_of_fmap. split.
  - intros (m & Hin & Heq). apply bool_decide_eq_true in Heq.
    exists m. split; [done | by apply list_elem_of_In].
  - intros (m & Heq & Hin). exists m. split; [by apply list_elem_of_In |].
    by apply bool_decide_eq_true.
Qed.

Lemma addMessage_update_present (message : JsObj) (state : ChatState) :
  prop message "id" ∈ ids (messages state) → addMessage_update message state = state.
Proof.
  intros Hin. unfold addMessage_update.
  apply id_present_existsb in Hin. by rewrite Hin.
Qed.

Lemma addMessage_update_has_id (message : JsObj) (state : ChatState) :
  prop message "id" ∈ ids (messages (addMessage_update message state)).
Proof.
  unfold addMessage_update.
  destruct (existsb _ (messages state)) eqn:Hex.
  - by apply id_present_existsb.
  - simpl. unfold ids. rewrite map_app. apply elem_of_app. right. simpl.
    apply list_elem_of_here.
Qed.

Lemma addMessage_update_NoDup (message : JsObj) (state : ChatState) :
  NoDup (ids (messages state)) → NoDup (ids (messages (addMessage_update message state))).
Proof.
  intros Hnd. unfold addMessage_update.
  destruct (existsb _ (messages state)) eqn:Hex; [done |].
  simpl. unfold ids. rewrite map_app. apply NoDup_app. split; [done |]. split.
  - intros x Hx Hx'. simpl in Hx'. apply list_elem_of_singleton in Hx'. subst x.
    apply id_present_existsb in Hx. congruence.
  - simpl. apply NoDup_singleton.
Qed.

(** C1. The merge of the reconciler is first-writer-wins: when the cache
    already holds an entry with the identifier of the incoming message,
    [addMessage] leaves the whole state as it is; delivering a message a
    second time (even a different version of the row with the same
    identifier) gives the state that one delivery gives; and a cache whose
    identifiers are pairwise distinct stays so after the merge. *)
Theorem addMessage_first_writer_wins (message : JsObj) (state : ChatState) :
  (prop message "id" ∈ ids (messages state) →
     final (addMessage message state) = state)
  ∧ (∀ again : JsObj, prop again "id" = prop message "id" →
       final (addMessage again (final (addMessage message state)))
       = final (addMessage message state))
  ∧ (NoDup (ids (messages state)) →
       NoDup (ids (messages (final (addMessage message state))))).
Proof.
  split; [| split].
  - apply addMessage_update_present.
  - intros again Hid. cbn. apply addMessage_update_present.
    rewrite Hid. apply addMessage_update_has_id.
  - apply addMessage_update_NoDup.
Qed.

Lemma addMessage_first_writer_wins_witness :
  final (addMessage Scenarios.msg_a (Scenarios.chat_with [] [Scenarios.msg_a]))
    = Scenarios.chat_with [] [Scenarios.msg_a]
  ∧ final (addMessage Scenarios.msg_a_again
             (final (addMessage Scenarios.msg_a (Scenarios.chat_with [] [Scenarios.msg_b]))))
    = final (addMessage Scenarios.msg_a (Scenarios.chat_with [] [Scenarios.msg_b]))
  ∧ NoDup (ids (messages (final (addMessage Scenarios.msg_a
                                   (Scenarios.chat_with [] [Scenarios.msg_b]))))).
Proof.
  destruct (addMessage_first_writer_wins Scenarios.msg_a
              (Scenarios.chat_with [] [Scenarios.msg_a])) as (Hpresent & _ & _).
  destruct (addMessage_first_writer_wins Scenarios.msg_a
              (Scenarios.chat_with [] [Scenarios.msg_b])) as (_ & Htwice & Hdistinct).
  split; [| split].
  - apply Hpresent. apply id_present_existsb. vm_compute. reflexivity.
  - apply Htwice. reflexivity.
  - apply Hdistinct. apply NoDup_singleton.
Defined.

(** Folding any sequence of insertion events into an empty cache never
    produces two entries with one identifier. *)
Lemma merges_from_empty_NoDup (incoming : list JsObj) (state : ChatState) :
  NoDup (ids (messages state)) →
  NoDup (ids (messages (fold_left (fun s m => final (addMessage m s)) incoming state))).
Proof.
  revert state. induction incoming as [| m incoming IH]; intros state Hnd; [done |].
  simpl. apply IH. by apply addMessage_update_NoDup.
Qed.

(** Redelivery at the level of the INSERT handler: the second delivery of an
    event leaves the cache that the first delivery produced. *)
Lemma on_insert_redelivery (sb : Supabase) (new_id : string) (state : ChatState) :
  messages (final (on_insert sb new_id (final (on_insert sb new_id state))))
  = messages (final (on_insert sb new_id state)).
Proof.
  unfold on_insert. run_action; cbn; try reflexivity.
  rewrite addMessage_update_present; [done | apply addMessage_update_has_id].
Qed.

End Reconciler.

(* ===================================================================== *)
(** ** Teardown of a chat subscription *)
(* ===================================================================== *)

Section Teardown.
Import ChatStore.

Lemma after_statuses_None (statuses : list string) :
  after_statuses statuses None = None.
Proof. induction statuses as [| s statuses IH]; [done | exact IH]. Qed.

Lemma after_statuses_Some (statuses : list string) (h : Subscription) :
  after_statuses statuses (Some h)
  = Some {| topic := topic h;
            isSubscribed := match last statuses with
                            | Some status => String.eqb status "SUBSCRIBED"
                            | None => isSubscribed h
                            end |}.
Proof.
  revert h. induction statuses as [| s statuses IH]; intros h.
  - by destruct h.
  - unfold after_statuses in *. simpl fold_left. rewrite IH. simpl topic.
    destruct statuses as [| s' statuses]; [done |].
    rewrite last_cons_cons.
    destruct (last (s' :: statuses)) eqn:Hlast; [done |].
    by apply last_None in Hlast.
Qed.

(** C7, as the code has it. The teardown returned by [subscribeToMessages]
    removes the realtime channel exactly when the last status the
    transport reported to the subscribe callback is ['SUBSCRIBED']; when no
    status was ever reported (the handshake never completed), or the last
    one is anything else, and in demo mode, invoking it removes nothing. *)
Theorem teardown_removes_only_when_subscribed
    (w : World) (sb : Supabase) (channelId : string) (statuses : list string) :
  connected w = Some sb →
  teardown (after_statuses statuses (subscribeToMessages w channelId))
  = match last statuses with
    | Some "SUBSCRIBED" => [EvRemoveChannel ("chat-messages-" +:+ channelId)]
    | _ => []
    end.
Proof.
  intros Hc. unfold subscribeToMessages. rewrite Hc, after_statuses_Some. simpl.
  destruct (last statuses) as [status |]; [| done].
  destruct (String.eqb status "SUBSCRIBED") eqn:Heq.
  - apply String.eqb_eq in Heq. by subst status.
  - apply String.eqb_neq in Heq.
    repeat (match goal with
            | |- context [match ?s with EmptyString => _ | String _ _ => _ end] =>
                destruct s as [| [[] [] [] [] [] [] [] []] ?]; try done
            end).
Qed.

Lemma teardown_removes_only_when_subscribed_witness :
  teardown (after_statuses ["CHANNEL_ERROR"; "SUBSCRIBED"]
              (subscribeToMessages
                 (Scenarios.world (Some (Scenarios.backend Scenarios.msg_a [])) Scenarios.notify_ok)
                 "c-1"))
  = [EvRemoveChannel "chat-messages-c-1"].
Proof.
  apply (teardown_removes_only_when_subscribed
           (Scenarios.world (Some (Scenarios.backend Scenarios.msg_a [])) Scenarios.notify_ok)
           (Scenarios.backend Scenarios.msg_a []) "c-1" ["CHANNEL_ERROR"; "SUBSCRIBED"]).
  reflexivity.
Defined.

(** C7, as the claim states it, fails: a subscription opened in connected
    mode whose handshake never completed (no status was reported) is torn
    down without any [removeChannel] call. *)
Lemma teardown_before_handshake_removes_nothing :
  is_Some (subscribeToMessages
             (Scenarios.world (Some (Scenarios.backend Scenarios.msg_a [])) Scenarios.notify_ok)
             "c-1")
  ∧ teardown (after_statuses []
                (subscribeToMessages
                   (Scenarios.world (Some (Scenarios.backend Scenarios.msg_a []))
                                    Scenarios.notify_ok)
                   "c-1"))
    = [].
Proof. split; [by eexists | reflexivity]. Qed.

(** In demo mode there is no channel, and the teardown does nothing. *)
Lemma teardown_demo (w : World) (channelId : string) (statuses : list string) :
  connected w = None →
  teardown (after_statuses statuses (subscribeToMessages w channelId)) = [].
Proof.
  intros Hc. unfold subscribeToMessages. rewrite Hc, after_statuses_None. done.
Qed.

End Teardown.

(* ===================================================================== *)
(** ** [getShares] *)
(* ===================================================================== *)

Section Shares.
Import PersonalNotesStore.

(** C10. [getShares] never throws and never touches the store: it returns
    the rows of the share query when the backend answers with data, and the
    empty list in every other case: an error response, a response without
    data, a rejected request, and a backend that is not configured. *)
Theorem getShares_total (w : World) (noteId : string) (state : PersonalNotesState) :
  outcome (getShares w noteId state)
  = Returned match connected w with
             | Some sb =>
                 match run sb (shares_query noteId) with
                 | Resolved (PgSuccess (Some shares)) => shares
                 | _ => []
                 end
             | None => []
             end
  ∧ final (getShares w noteId state) = state.
Proof.
  unfold getShares. destruct (connected w) as [sb |]; [| done].
  run_action; cbn; done.
Qed.

End Shares.

(* ===================================================================== *)
(** ** Fetch failures *)
(* ===================================================================== *)

Section FetchFailure.

(** C4. In connected mode, when the read of the backend fails (an error
    response or a rejected request), [fetchNotes] and [fetchMessages]
    return normally with the cached list they started with: the only
    change to the store is the loading flag, which ends cleared; the read
    was sent once and never again, and the failure was logged once. *)
Theorem fetch_failure_keeps_cache (w : World) (sb : Supabase) (e : JsError) :
  connected w = Some sb →
  (∀ st : NotesStore.NotesState,
     read_fails sb (NotesStore.notes_query (NotesStore.filter st)) e →
     outcome (NotesStore.fetchNotes w st) = Returned tt
     ∧ NotesStore.notes (final (NotesStore.fetchNotes w st)) = NotesStore.notes st
     ∧ final (NotesStore.fetchNotes w st) = NotesStore.set_isLoading false st
     ∧ trace (NotesStore.fetchNotes w st)
       = [EvQuery (NotesStore.notes_query (NotesStore.filter st));
          EvConsoleError "Error fetching notes:" e])
  ∧ (∀ (channelId : string) (st : ChatStore.ChatState),
       read_fails sb (ChatStore.messages_query channelId) e →
       outcome (ChatStore.fetchMessages w channelId st) = Returned tt
       ∧ ChatStore.messages (final (ChatStore.fetchMessages w channelId st))
         = ChatStore.messages st
       ∧ final (ChatStore.fetchMessages w channelId st)
         = ChatStore.set_isLoadingMessages false st
       ∧ trace (ChatStore.fetchMessages w channelId st)
         = [EvQuery (ChatStore.messages_query channelId);
            EvConsoleError "Error fetching messages:" e]).
Proof.
  intros Hc. split.
  - intros st Hfail. unfold NotesStore.fetchNotes. rewrite Hc.
    unfold_action.
    cbn [NotesStore.filter NotesStore.set_isLoading].
    destruct Hfail as [-> | ->]; cbn; done.
  - intros channelId st Hfail. unfold ChatStore.fetchMessages. rewrite Hc.
    unfold_action.
    destruct Hfail as [-> | ->]; cbn; done.
Qed.

Lemma fetch_failure_keeps_cache_witness :
  NotesStore.notes
    (final (NotesStore.fetchNotes
              (Scenarios.world (Some (Scenarios.failing_backend "JWT expired")) Scenarios.notify_ok)
              (Scenarios.notes_with [Scenarios.task_bob] None)))
  = [Scenarios.task_bob]
  ∧ ChatStore.messages
      (final (ChatStore.fetchMessages
                (Scenarios.world (Some (Scenarios.failing_backend "JWT expired"))
                                 Scenarios.notify_ok)
                "c-1" (Scenarios.chat_with [] [Scenarios.msg_a])))
    = [Scenarios.msg_a].
Proof.
  destruct (fetch_failure_keeps_cache
              (Scenarios.world (Some (Scenarios.failing_backend "JWT expired")) Scenarios.notify_ok)
              (Scenarios.failing_backend "JWT expired")
              {| message := "JWT expired" |} eq_refl) as [Hnotes Hmessages].
  split.
  - apply (Hnotes (Scenarios.notes_with [Scenarios.task_bob] None)). left. reflexivity.
  - apply (Hmessages "c-1" (Scenarios.chat_with [] [Scenarios.msg_a])). left. reflexivity.
Defined.

End FetchFailure.

(* ===================================================================== *)
(** ** Normalisation of the relational fields *)
(* ===================================================================== *)

Section Normalisation.
Import NotesStore.

Lemma or_else_null_not_empty (v : JsVal) : or_else v JNull ≠ JStr "".
Proof. unfold or_else. destruct v as [| | [] | n | [| c s] | l | f]; cbn; try done.
  by destruct (n =? 0)%Z. Qed.

Lemma relational_cases (k : string) :
  k ∈ relational_fields → k = "assigned_to" ∨ k = "parent_id" ∨ k = "project".
Proof.
  unfold relational_fields. intros Hk.
  repeat (apply elem_of_cons in Hk as [-> | Hk]; [tauto |]).
  by apply elem_of_nil in Hk.
Qed.

Lemma cleanedNote_lookup (note : JsObj) (k : string) :
  k ∈ relational_fields → cleanedNote note !! k = Some (or_else (prop note k) JNull).
Proof.
  intros Hk. apply relational_cases in Hk. unfold cleanedNote.
  destruct Hk as [-> | [-> | ->]]; by simplify_map_eq.
Qed.

Lemma cleanedUpdates_lookup (w : World) (updates : JsObj) (k : string) :
  k ∈ relational_fields →
  cleanedUpdates w updates !! k
  = if has k updates then Some (or_else (prop updates k) JNull) else None.
Proof.
  intros Hk. apply relational_cases in Hk.
  unfold cleanedUpdates, clean_if_present, has.
  destruct Hk as [-> | [-> | ->]];
    repeat match goal with
           | |- context [bool_decide (is_Some ?o)] =>
               let Hd := fresh "Hd" in
               destruct (bool_decide (is_Some o)) eqn:Hd;
               [apply bool_decide_eq_true in Hd
               | apply bool_decide_eq_false, eq_None_not_Some in Hd]
           end;
    by simplify_map_eq.
Qed.

Lemma submitted_createNote (w : World) (sb : Supabase) (note : JsObj) (st : NotesState) :
  connected w = Some sb →
  submitted (trace (createNote w note st)) = [cleanedNote note].
Proof.
  intros Hc. unfold createNote. rewrite Hc.
  destruct (notifies_on_create (cleanedNote note)); run_action; reflexivity.
Qed.

Lemma submitted_updateNote (w : World) (sb : Supabase) (id : string) (updates : JsObj)
    (st : NotesState) :
  connected w = Some sb →
  submitted (trace (updateNote w id updates st))
  = match run_single sb (current_note_query id) with
    | Resolved _ => [cleanedUpdates w updates]
    | Rejected _ => []
    end.
Proof.
  intros Hc. unfold updateNote. rewrite Hc.
  run_action; try reflexivity;
    match goal with
    | |- context [notifies_on_update ?c ?n] => destruct (notifies_on_update c n)
    end; run_action; reflexivity.
Qed.

(** C5. In connected mode, [createNote] submits exactly one row and
    [updateNote] at most one partial row (exactly one once the read that
    precedes the update has resolved), and in what is submitted none of the
    optional relational fields (assignee, parent, project) is ever the
    empty string: a field the caller left out or left empty on create, or
    included as the empty string on update, is submitted as [null]. *)
Theorem blank_relational_fields_submitted_as_null (w : World) (sb : Supabase) :
  connected w = Some sb →
  (∀ (note : JsObj) (st : NotesState),
     ∃ row, submitted (trace (createNote w note st)) = [row]
       ∧ ∀ k, k ∈ relational_fields →
           row !! k ≠ Some (JStr "")
           ∧ (left_blank note k → row !! k = Some JNull))
  ∧ (∀ (id : string) (updates : JsObj) (st : NotesState),
       ∃ payload,
         (∀ p, p ∈ submitted (trace (updateNote w id updates st)) → p = payload)
         ∧ (∀ current, run_single sb (current_note_query id) = Resolved current →
              submitted (trace (updateNote w id updates st)) = [payload])
         ∧ ∀ k, k ∈ relational_fields →
             payload !! k ≠ Some (JStr "")
             ∧ (updates !! k = Some (JStr "") → payload !! k = Some JNull)).
Proof.
  intros Hc. split.
  - intros note st. exists (cleanedNote note). split.
    + by apply (submitted_createNote w sb).
    + intros k Hk. rewrite (cleanedNote_lookup note k Hk). split.
      * intros [=Heq]. by apply or_else_null_not_empty in Heq.
      * unfold prop. intros [-> | ->]; reflexivity.
  - intros id updates st. exists (cleanedUpdates w updates).
    rewrite (submitted_updateNote w sb id updates st Hc). split; [| split].
    + destruct (run_single sb (current_note_query id)); intros p Hp.
      * by apply list_elem_of_singleton in Hp.
      * by apply elem_of_nil in Hp.
    + by intros current ->.
    + intros k Hk. rewrite (cleanedUpdates_lookup w updates k Hk). unfold has, prop. split.
      * destruct (bool_decide (is_Some (updates !! k))); [| done].
        intros [=Heq]. by apply or_else_null_not_empty in Heq.
      * intros ->. rewrite bool_decide_eq_true_2; [reflexivity | by eexists].
Qed.

Lemma blank_relational_fields_submitted_as_null_witness :
  ∃ row,
    submitted (trace (createNote
                        (Scenarios.world (Some (Scenarios.backend Scenarios.task_bob []))
                                         Scenarios.notify_ok)
                        {[ "title" := JStr "Informe"; "assigned_to" := JStr "" ]}
                        (Scenarios.notes_with [] None)))
    = [row]
    ∧ row !! "assigned_to" = Some JNull.
Proof.
  destruct (blank_relational_fields_submitted_as_null
              (Scenarios.world (Some (Scenarios.backend Scenarios.task_bob [])) Scenarios.notify_ok)
              (Scenarios.backend Scenarios.task_bob []) eq_refl) as [Hcreate _].
  destruct (Hcreate {[ "title" := JStr "Informe"; "assigned_to" := JStr "" ]}
                    (Scenarios.notes_with [] None)) as (row & Hrow & Hfields).
  exists row. split; [exact Hrow |].
  apply (Hfields "assigned_to").
  - unfold relational_fields. apply list_elem_of_here.
  - right. reflexivity.
Defined.

End Normalisation.

(* ===================================================================== *)
(** ** Notifications of the notes store *)
(* ===================================================================== *)

Section Notifications.
Import NotesStore.










End Notifications.

(* ===================================================================== *)
(** ** A failing notification and the result of the mutation *)
(* ===================================================================== *)

Section NotificationFailure.
Import NotesStore.

(** C3, as the code has it. Once the backend has accepted the insert or the
    update (and the session lookup has resolved), a notification call that
    resolves never reaches the result of [createNote] or [updateNote],
    whether it reports success or an error: the action returns
    [{ error: null }] and the cache is updated.  A notification call that
    rejects, however, is caught by the [catch] of the action itself: the
    action returns the thrown message as its error and the store is left
    as it was. *)
Theorem notification_failure_reaches_result_only_when_thrown
    (w : World) (sb : Supabase) :
  connected w = Some sb →
  (∀ (note : JsObj) (st : NotesState) (data : JsObj) (user : option JsObj),
     run_single sb (insert_note_query (cleanedNote note)) = Resolved (PgSuccess data) →
     auth_getUser sb = Resolved user →
     (∀ reported,
        createNotification w (created_notice (cleanedNote note) data user)
          = Resolved reported →
        outcome (createNote w note st) = Returned {| error := None |}
        ∧ final (createNote w note st) = set_notes (data :: notes st) st)
     ∧ (∀ e,
          notifies_on_create (cleanedNote note) = true →
          createNotification w (created_notice (cleanedNote note) data user)
            = Rejected e →
          outcome (createNote w note st) = Returned {| error := Some (message e) |}
          ∧ final (createNote w note st) = st))
  ∧ (∀ (id : string) (updates : JsObj) (st : NotesState) (current : PgResponse JsObj)
       (data : JsObj) (user : option JsObj),
       run_single sb (current_note_query id) = Resolved current →
       run_single sb (update_note_query id (cleanedUpdates w updates))
         = Resolved (PgSuccess data) →
       auth_getUser sb = Resolved user →
       (∀ reported,
          createNotification w (reassigned_notice id (cleanedUpdates w updates) data user)
            = Resolved reported →
          outcome (updateNote w id updates st) = Returned {| error := None |}
          ∧ final (updateNote w id updates st) = updateNote_update id data st)
       ∧ (∀ e,
            notifies_on_update (cleanedUpdates w updates) (data_of current) = true →
            createNotification w (reassigned_notice id (cleanedUpdates w updates) data user)
              = Rejected e →
            outcome (updateNote w id updates st) = Returned {| error := Some (message e) |}
            ∧ final (updateNote w id updates st) = st)).
Proof.
  intros Hc. split.
  - intros note st data user Hins Huser. split.
    + intros reported Hnotify. unfold createNote. rewrite Hc. unfold_action.
      rewrite Hins. destruct (notifies_on_create (cleanedNote note)); [| done].
      by rewrite Huser, Hnotify.
    + intros e Hguard Hnotify. unfold createNote. rewrite Hc. unfold_action.
      by rewrite Hins, Hguard, Huser, Hnotify.
  - intros id updates st current data user Hpre Hupd Huser. split.
    + intros reported Hnotify. unfold updateNote. rewrite Hc. unfold_action.
      rewrite Hpre, Hupd.
      destruct (notifies_on_update (cleanedUpdates w updates) (data_of current)); [| done].
      by rewrite Huser, Hnotify.
    + intros e Hguard Hnotify. unfold updateNote. rewrite Hc. unfold_action.
      by rewrite Hpre, Hupd, Hguard, Huser, Hnotify.
Qed.

Lemma notification_failure_reaches_result_only_when_thrown_witness :
  (outcome (createNote
              (Scenarios.world (Some (Scenarios.backend Scenarios.task_bob []))
                               Scenarios.notify_error)
              Scenarios.task_bob (Scenarios.notes_with [] None))
   = Returned {| error := None |}
   ∧ final (createNote
              (Scenarios.world (Some (Scenarios.backend Scenarios.task_bob []))
                               Scenarios.notify_error)
              Scenarios.task_bob (Scenarios.notes_with [] None))
     = set_notes [Scenarios.task_bob] (Scenarios.notes_with [] None))
  ∧ (outcome (updateNote
                (Scenarios.world (Some Scenarios.backend_reassigning)
                                 Scenarios.notify_throws)
                "n-1" {[ "assigned_to" := JStr "carol" ]}
                (Scenarios.notes_with [Scenarios.task_bob] None))
     = Returned {| error := Some "Failed to fetch" |}
     ∧ final (updateNote
                (Scenarios.world (Some Scenarios.backend_reassigning)
                                 Scenarios.notify_throws)
                "n-1" {[ "assigned_to" := JStr "carol" ]}
                (Scenarios.notes_with [Scenarios.task_bob] None))
       = Scenarios.notes_with [Scenarios.task_bob] None).
Proof.
  split.
  - destruct (notification_failure_reaches_result_only_when_thrown
                (Scenarios.world (Some (Scenarios.backend Scenarios.task_bob []))
                                 Scenarios.notify_error)
                (Scenarios.backend Scenarios.task_bob []) eq_refl) as [Hcreate _].
    destruct (Hcreate Scenarios.task_bob (Scenarios.notes_with [] None) Scenarios.task_bob
                      (Some (list_to_map [("id", JStr "alice")])) eq_refl eq_refl)
      as [Hresolved _].
    apply (Hresolved (Some {| message := "permission denied for table notifications" |})).
    reflexivity.
  - destruct (notification_failure_reaches_result_only_when_thrown
                (Scenarios.world (Some Scenarios.backend_reassigning)
                                 Scenarios.notify_throws)
                Scenarios.backend_reassigning eq_refl) as [_ Hupdate].
    destruct (Hupdate "n-1" {[ "assigned_to" := JStr "carol" ]}
                      (Scenarios.notes_with [Scenarios.task_bob] None)
                      (PgSuccess Scenarios.task_bob) Scenarios.task_carol
                      (Some (list_to_map [("id", JStr "alice")])) eq_refl eq_refl eq_refl)
      as [_ Hrejected].
    apply (Hrejected {| message := "Failed to fetch" |}).
    + vm_compute. reflexivity.
    + reflexivity.
Defined.

(** C3, as the claim states it, fails: the backend accepts the insert of a
    note that alice assigns to bob, the notification call then rejects, and
    [createNote] returns the thrown message as its error, with the new row
    missing from the cache. *)
Lemma createNote_fails_when_notification_throws :
  run_single (Scenarios.backend Scenarios.task_bob [])
             (insert_note_query (cleanedNote Scenarios.task_bob))
    = Resolved (PgSuccess Scenarios.task_bob)
  ∧ outcome (createNote
               (Scenarios.world (Some (Scenarios.backend Scenarios.task_bob []))
                                Scenarios.notify_throws)
               Scenarios.task_bob (Scenarios.notes_with [] None))
    = Returned {| error := Some "Failed to fetch" |}
  ∧ notes (final (createNote
                    (Scenarios.world (Some (Scenarios.backend Scenarios.task_bob []))
                                     Scenarios.notify_throws)
                    Scenarios.task_bob (Scenarios.notes_with [] None)))
    = [].
Proof. split; [reflexivity | split; vm_compute; reflexivity]. Qed.

End NotificationFailure.

(* ===================================================================== *)
(** ** Deletion *)
(* ===================================================================== *)

Section Deletion.

Lemma filter_absent_id (id : string) (cache : list JsObj) :
  JStr id ∉ ids cache → base.filter (λ n, prop n "id" ≠ JStr id) cache = cache.
Proof.
  unfold ids. induction cache as [| n cache IH]; intros Habsent; [done |].
  cbn in Habsent. apply not_elem_of_cons in Habsent as [Hne Habsent].
  rewrite filter_cons_True.
  - f_equal. apply IH. exact Habsent.
  - intros Heq. apply Hne. by rewrite Heq.
Qed.

Lemma strict_eq_decide (a b : JsVal) :
  strict_eq a b = if decide (a = b) then true else false.
Proof. reflexivity. Qed.

Lemma notes_deleteNote_accepted (w : World) (id : string) (st : NotesStore.NotesState) :
  removal_accepted w (NotesStore.delete_note_query id) →
  outcome (NotesStore.deleteNote w id st) = Returned {| error := None |}
  ∧ final (NotesStore.deleteNote w id st) = NotesStore.deleteNote_update id st.
Proof.
  unfold NotesStore.deleteNote.
  intros [Hc | (sb & data & Hc & Hrun)]; rewrite Hc; unfold_action; [done |].
  by rewrite Hrun.
Qed.

Lemma notes_deleteNote_refused (w : World) (id : string) (e : JsError)
    (st : NotesStore.NotesState) :
  removal_refused w (NotesStore.delete_note_query id) e →
  outcome (NotesStore.deleteNote w id st) = Returned {| error := Some (message e) |}
  ∧ final (NotesStore.deleteNote w id st) = st.
Proof.
  unfold NotesStore.deleteNote.
  intros (sb & Hc & [Hrun | Hrun]); rewrite Hc; unfold_action; by rewrite Hrun.
Qed.

Lemma personal_deleteNote_accepted (w : World) (id : string)
    (st : PersonalNotesStore.PersonalNotesState) :
  removal_accepted w (PersonalNotesStore.delete_note_query id) →
  outcome (PersonalNotesStore.deleteNote w id st) = Returned {| error := None |}
  ∧ final (PersonalNotesStore.deleteNote w id st)
    = PersonalNotesStore.deleteNote_update id st.
Proof.
  unfold PersonalNotesStore.deleteNote.
  intros [Hc | (sb & data & Hc & Hrun)]; rewrite Hc; unfold_action; [done |].
  by rewrite Hrun.
Qed.

Lemma personal_deleteNote_refused (w : World) (id : string) (e : JsError)
    (st : PersonalNotesStore.PersonalNotesState) :
  removal_refused w (PersonalNotesStore.delete_note_query id) e →
  outcome (PersonalNotesStore.deleteNote w id st) = Returned {| error := Some (message e) |}
  ∧ final (PersonalNotesStore.deleteNote w id st) = st.
Proof.
  unfold PersonalNotesStore.deleteNote.
  intros (sb & Hc & [Hrun | Hrun]); rewrite Hc; unfold_action; by rewrite Hrun.
Qed.

(** C6, as the code has it. A delete that goes through (always in demo
    mode; in connected mode when the backend answers the removal without an
    error) returns [{ error: null }], keeps exactly the cached entries
    whose identifier differs from [id], in their order, and clears the
    selected-entity reference exactly when it pointed at [id]; so for an
    [id] the cache does not hold, the cache is unchanged, and the selected
    reference is unchanged unless it pointed at [id]. A delete the backend
    refuses returns the error and changes nothing. The personal notes
    store behaves alike on its cache and has no selected reference. *)
Theorem delete_removes_exactly_the_matching_entries (w : World) (id : string) :
  (∀ st : NotesStore.NotesState,
     removal_accepted w (NotesStore.delete_note_query id) →
     outcome (NotesStore.deleteNote w id st) = Returned {| error := None |}
     ∧ NotesStore.notes (final (NotesStore.deleteNote w id st))
       = base.filter (λ n, prop n "id" ≠ JStr id) (NotesStore.notes st)
     ∧ NotesStore.selectedNote (final (NotesStore.deleteNote w id st))
       = selection_after_delete id (NotesStore.selectedNote st)
     ∧ NotesStore.filter (final (NotesStore.deleteNote w id st)) = NotesStore.filter st
     ∧ (JStr id ∉ ids (NotesStore.notes st) →
          NotesStore.notes (final (NotesStore.deleteNote w id st)) = NotesStore.notes st))
  ∧ (∀ (st : NotesStore.NotesState) (e : JsError),
       removal_refused w (NotesStore.delete_note_query id) e →
       outcome (NotesStore.deleteNote w id st) = Returned {| error := Some (message e) |}
       ∧ final (NotesStore.deleteNote w id st) = st)
  ∧ (∀ st : PersonalNotesStore.PersonalNotesState,
       removal_accepted w (PersonalNotesStore.delete_note_query id) →
       outcome (PersonalNotesStore.deleteNote w id st) = Returned {| error := None |}
       ∧ PersonalNotesStore.notes (final (PersonalNotesStore.deleteNote w id st))
         = base.filter (λ n, prop n "id" ≠ JStr id) (PersonalNotesStore.notes st)
       ∧ PersonalNotesStore.sharedWithMe (final (PersonalNotesStore.deleteNote w id st))
         = PersonalNotesStore.sharedWithMe st
       ∧ (JStr id ∉ ids (PersonalNotesStore.notes st) →
            final (PersonalNotesStore.deleteNote w id st) = st))
  ∧ (∀ (st : PersonalNotesStore.PersonalNotesState) (e : JsError),
       removal_refused w (PersonalNotesStore.delete_note_query id) e →
       outcome (PersonalNotesStore.deleteNote w id st)
         = Returned {| error := Some (message e) |}
       ∧ final (PersonalNotesStore.deleteNote w id st) = st).
Proof.
  split; [| split; [| split]].
  - intros st Hok. destruct (notes_deleteNote_accepted w id st Hok) as [Hout Hfin].
    rewrite Hout, Hfin. unfold NotesStore.deleteNote_update. cbn.
    repeat split.
    + unfold selection_after_delete. rewrite strict_eq_decide.
      by destruct (decide (opt_prop (NotesStore.selectedNote st) "id" = JStr id)).
    + apply filter_absent_id.
  - intros st e. apply notes_deleteNote_refused.
  - intros st Hok. destruct (personal_deleteNote_accepted w id st Hok) as [Hout Hfin].
    rewrite Hout, Hfin. unfold PersonalNotesStore.deleteNote_update. cbn.
    repeat split. intros Habsent. rewrite filter_absent_id by done. by destruct st.
  - intros st e. apply personal_deleteNote_refused.
Qed.

Lemma delete_removes_exactly_the_matching_entries_witness :
  (outcome (NotesStore.deleteNote Scenarios.demo_world "missing-id"
              (Scenarios.notes_with [Scenarios.task_bob] (Some Scenarios.task_bob)))
   = Returned {| error := None |}
   ∧ NotesStore.notes
       (final (NotesStore.deleteNote Scenarios.demo_world "missing-id"
                 (Scenarios.notes_with [Scenarios.task_bob] (Some Scenarios.task_bob))))
     = [Scenarios.task_bob])
  ∧ (outcome (NotesStore.deleteNote
                (Scenarios.world (Some (Scenarios.failing_backend "permission denied"))
                                 Scenarios.notify_ok)
                "n-1" (Scenarios.notes_with [Scenarios.task_bob] None))
     = Returned {| error := Some "permission denied" |})
  ∧ final (PersonalNotesStore.deleteNote Scenarios.connected_world "missing-id"
             (Scenarios.personal_with [Scenarios.task_bob]))
    = Scenarios.personal_with [Scenarios.task_bob].
Proof.
  split; [| split].
  - destruct (delete_removes_exactly_the_matching_entries Scenarios.demo_world "missing-id")
      as (Hnotes & _).
    destruct (Hnotes (Scenarios.notes_with [Scenarios.task_bob] (Some Scenarios.task_bob)))
      as (Hout & _ & _ & _ & Habsent).
    + left. reflexivity.
    + split; [exact Hout |]. apply Habsent.
      intros Hin. vm_compute in Hin. apply list_elem_of_singleton in Hin. discriminate.
  - destruct (delete_removes_exactly_the_matching_entries
                (Scenarios.world (Some (Scenarios.failing_backend "permission denied"))
                                 Scenarios.notify_ok) "n-1")
      as (_ & Hrefused & _).
    apply (Hrefused (Scenarios.notes_with [Scenarios.task_bob] None)
                    {| message := "permission denied" |}).
    exists (Scenarios.failing_backend "permission denied").
    split; [reflexivity | left; reflexivity].
  - destruct (delete_removes_exactly_the_matching_entries
                Scenarios.connected_world "missing-id")
      as (_ & _ & Hpersonal & _).
    apply (Hpersonal (Scenarios.personal_with [Scenarios.task_bob])).
    + right. exists Scenarios.backend_one_note, (Some []). split; reflexivity.
    + intros Hin. vm_compute in Hin. apply list_elem_of_singleton in Hin. discriminate.
Defined.

(** The state used below is one the store reaches through its own actions:
    fetch, select, narrow the filter. *)
Lemma after_filtering_state :
  NotesStore.notes Scenarios.after_filtering = []
  ∧ NotesStore.selectedNote Scenarios.after_filtering = Some Scenarios.task_bob.
Proof. split; vm_compute; reflexivity. Qed.

(** C6, as the claim states it, fails twice over. The cache does not hold
    the identifier [n-1], yet deleting it changes the selected-entity
    reference, which pointed at it; and when the backend refuses the
    removal, deleting an identifier the cache does not hold returns the
    error, not success. *)
Lemma delete_of_absent_id_clears_selection :
  (JStr "n-1" ∉ ids (NotesStore.notes Scenarios.after_filtering))
  ∧ outcome (NotesStore.deleteNote Scenarios.connected_world "n-1" Scenarios.after_filtering)
    = Returned {| error := None |}
  ∧ NotesStore.selectedNote Scenarios.after_filtering = Some Scenarios.task_bob
  ∧ NotesStore.selectedNote
      (final (NotesStore.deleteNote Scenarios.connected_world "n-1"
                Scenarios.after_filtering))
    = None
  ∧ outcome (NotesStore.deleteNote
               (Scenarios.world (Some (Scenarios.failing_backend "permission denied"))
                                Scenarios.notify_ok)
               "missing-id" (Scenarios.notes_with [Scenarios.task_bob] None))
    = Returned {| error := Some "permission denied" |}.
Proof.
  split; [| split; [| split; [| split]]]; try (vm_compute; reflexivity).
  intros Hin. vm_compute in Hin. by apply elem_of_nil in Hin.
Qed.

End Deletion.

(* ===================================================================== *)
(** ** Where a created entity lands in the cache *)
(* ===================================================================== *)

Section Creation.

Lemma notes_createNote_success (w : World) (note : JsObj) (st : NotesStore.NotesState) :
  outcome (NotesStore.createNote w note st) = Returned {| error := None |} →
  ∃ entity,
    final (NotesStore.createNote w note st)
      = NotesStore.set_notes (entity :: NotesStore.notes st) st
    ∧ match connected w with
      | None => entity = NotesStore.demo_note w note
      | Some sb =>
          run_single sb (NotesStore.insert_note_query (NotesStore.cleanedNote note))
            = Resolved (PgSuccess entity)
      end.
Proof.
  unfold NotesStore.createNote. destruct (connected w) as [sb |].
  - unfold_action.
    destruct (run_single sb _) as [[data | e] | e] eqn:Hins; try discriminate.
    destruct (NotesStore.notifies_on_create _).
    + destruct (auth_getUser sb) as [user | e]; [| discriminate].
      destruct (createNotification w _) as [reported | e]; [| discriminate].
      intros _. by exists data.
    + intros _. by exists data.
  - intros _. by eexists.
Qed.

Lemma personal_createNote_success (w : World) (title : string) (content : option string)
    (st : PersonalNotesStore.PersonalNotesState) (r : PersonalNotesStore.CreateResult) :
  outcome (PersonalNotesStore.createNote w title content st) = Returned r →
  PersonalNotesStore.error r = None →
  ∃ entity,
    PersonalNotesStore.note r = Some entity
    ∧ final (PersonalNotesStore.createNote w title content st)
      = PersonalNotesStore.set_notes (entity :: PersonalNotesStore.notes st) st
    ∧ match connected w with
      | None => entity = PersonalNotesStore.demo_note w title (default "" content)
      | Some sb =>
          ∃ user, auth_getUser sb = Resolved user
            ∧ run_single sb (PersonalNotesStore.insert_note_query
                               title (default "" content) (opt_prop user "id"))
              = Resolved (PgSuccess entity)
      end.
Proof.
  unfold PersonalNotesStore.createNote. destruct (connected w) as [sb |].
  - unfold_action.
    destruct (auth_getUser sb) as [user | e] eqn:Huser.
    + destruct (run_single sb _) as [[data | e] | e] eqn:Hins;
        intros [= <-]; cbn; try discriminate.
      intros _. exists data. repeat split. by exists user.
    + intros [= <-]; cbn. discriminate.
  - intros [= <-] _. by eexists.
Qed.

Lemma createChannel_success (w : World) (name : string) (description : JsVal)
    (type : option string) (st : ChatStore.ChatState) :
  outcome (ChatStore.createChannel w name description type st)
    = Returned {| error := None |} →
  match connected w with
  | None => final (ChatStore.createChannel w name description type st) = st
  | Some sb =>
      ∃ user entity,
        auth_getUser sb = Resolved user
        ∧ run_single sb (ChatStore.insert_channel_query
                           name description (default "public" type) user)
          = Resolved (PgSuccess entity)
        ∧ final (ChatStore.createChannel w name description type st)
          = ChatStore.set_channels (ChatStore.channels st ++ [entity]) st
  end.
Proof.
  unfold ChatStore.createChannel. destruct (connected w) as [sb |]; [| done].
  unfold_action.
  destruct (auth_getUser sb) as [user | e] eqn:Huser; [| discriminate].
  destruct (run_single sb _) as [[data | e] | e] eqn:Hins; try discriminate.
  intros _. by exists user, data.
Qed.

(** C8, as the code has it. A successful [createNote] of the notes store
    and of the personal notes store puts the new entity (the row the
    backend returned, or the locally built one in demo mode) at the head of
    the cache and leaves the rest of the store as it was; the personal
    notes store also returns the entity, the notes store returns only
    [{ error: null }]. A successful [createChannel] puts the new channel at
    the end of the channel list in connected mode, and in demo mode returns
    success without creating anything. *)
Theorem created_entity_position (w : World) :
  (∀ (note : JsObj) (st : NotesStore.NotesState),
     outcome (NotesStore.createNote w note st) = Returned {| error := None |} →
     ∃ entity,
       final (NotesStore.createNote w note st)
         = NotesStore.set_notes (entity :: NotesStore.notes st) st
       ∧ match connected w with
         | None => entity = NotesStore.demo_note w note
         | Some sb =>
             run_single sb (NotesStore.insert_note_query (NotesStore.cleanedNote note))
               = Resolved (PgSuccess entity)
         end)
  ∧ (∀ (title : string) (content : option string)
       (st : PersonalNotesStore.PersonalNotesState) (r : PersonalNotesStore.CreateResult),
       outcome (PersonalNotesStore.createNote w title content st) = Returned r →
       PersonalNotesStore.error r = None →
       ∃ entity,
         PersonalNotesStore.note r = Some entity
         ∧ final (PersonalNotesStore.createNote w title content st)
           = PersonalNotesStore.set_notes (entity :: PersonalNotesStore.notes st) st
         ∧ match connected w with
           | None => entity = PersonalNotesStore.demo_note w title (default "" content)
           | Some sb =>
               ∃ user, auth_getUser sb = Resolved user
                 ∧ run_single sb (PersonalNotesStore.insert_note_query
                                    title (default "" content) (opt_prop user "id"))
                   = Resolved (PgSuccess entity)
           end)
  ∧ (∀ (name : string) (description : JsVal) (type : option string)
       (st : ChatStore.ChatState),
       outcome (ChatStore.createChannel w name description type st)
         = Returned {| error := None |} →
       match connected w with
       | None => final (ChatStore.createChannel w name description type st) = st
       | Some sb =>
           ∃ user entity,
             auth_getUser sb = Resolved user
             ∧ run_single sb (ChatStore.insert_channel_query
                                name description (default "public" type) user)
               = Resolved (PgSuccess entity)
             ∧ final (ChatStore.createChannel w name description type st)
               = ChatStore.set_channels (ChatStore.channels st ++ [entity]) st
       end).
Proof.
  split; [| split].
  - apply notes_createNote_success.
  - apply personal_createNote_success.
  - apply createChannel_success.
Qed.

Lemma created_entity_position_witness :
  (∃ entity,
     final (NotesStore.createNote Scenarios.demo_world {[ "title" := JStr "Informe" ]}
              (Scenarios.notes_with [Scenarios.task_bob] None))
     = NotesStore.set_notes [entity; Scenarios.task_bob]
         (Scenarios.notes_with [Scenarios.task_bob] None))
  ∧ (∃ entity,
       final (PersonalNotesStore.createNote
                (Scenarios.world (Some (Scenarios.backend Scenarios.msg_b [])) Scenarios.notify_ok)
                "Ideas" None (Scenarios.personal_with [Scenarios.msg_a]))
       = PersonalNotesStore.set_notes [entity; Scenarios.msg_a]
           (Scenarios.personal_with [Scenarios.msg_a]))
  ∧ final (ChatStore.createChannel Scenarios.demo_world "ventas" JUndefined None
             (Scenarios.chat_with [Scenarios.general] []))
    = Scenarios.chat_with [Scenarios.general] [].
Proof.
  destruct (created_entity_position Scenarios.demo_world) as (Hnotes & _ & Hchannel).
  destruct (created_entity_position
              (Scenarios.world (Some (Scenarios.backend Scenarios.msg_b [])) Scenarios.notify_ok))
    as (_ & Hpersonal & _).
  split; [| split].
  - destruct (Hnotes {[ "title" := JStr "Informe" ]}
                     (Scenarios.notes_with [Scenarios.task_bob] None) eq_refl)
      as (entity & Hfinal & _).
    by exists entity.
  - destruct (Hpersonal "Ideas" None (Scenarios.personal_with [Scenarios.msg_a])
                        {| PersonalNotesStore.error := None;
                           PersonalNotesStore.note := Some Scenarios.msg_b |}
                        eq_refl eq_refl)
      as (entity & _ & Hfinal & _).
    by exists entity.
  - apply (Hchannel "ventas" JUndefined None (Scenarios.chat_with [Scenarios.general] [])).
    reflexivity.
Defined.

(** C8, as the claim states it, fails: in connected mode a successful
    [createChannel] leaves the existing channel at the head of the list and
    puts the new one after it; in demo mode a successful [createChannel]
    leaves the list without the new channel; and what a successful
    [createNote] of the notes store returns is [{ error: null }], which
    carries no entity. *)
Lemma createChannel_appends :
  outcome (NotesStore.createNote Scenarios.demo_world {[ "title" := JStr "Informe" ]}
             (Scenarios.notes_with [] None))
    = Returned {| error := None |}
  ∧ outcome (ChatStore.createChannel
             (Scenarios.world (Some (Scenarios.backend Scenarios.random [])) Scenarios.notify_ok)
             "random" JUndefined None (Scenarios.chat_with [Scenarios.general] []))
    = Returned {| error := None |}
  ∧ ChatStore.channels
      (final (ChatStore.createChannel
                (Scenarios.world (Some (Scenarios.backend Scenarios.random []))
                                 Scenarios.notify_ok)
                "random" JUndefined None (Scenarios.chat_with [Scenarios.general] [])))
    = [Scenarios.general; Scenarios.random]
  ∧ outcome (ChatStore.createChannel Scenarios.demo_world "random" JUndefined None
               (Scenarios.chat_with [Scenarios.general] []))
    = Returned {| error := None |}
  ∧ ChatStore.channels
      (final (ChatStore.createChannel Scenarios.demo_world "random" JUndefined None
                (Scenarios.chat_with [Scenarios.general] [])))
    = [Scenarios.general].
Proof. repeat split. Qed.

End Creation.

(* ===================================================================== *)
(** ** The client-side filters *)
(* ===================================================================== *)

Section Filters.

Lemma keeps_same_month (now now' : Dates.Date) (f : Expenses.FilterState)
    (expense : Expenses.Expense) :
  Dates.year now = Dates.year now' →
  Dates.month now = Dates.month now' →
  Expenses.keeps now f expense = Expenses.keeps now' f expense.
Proof.
  intros Hy Hm. unfold Expenses.keeps, Dates.startOfMonth, Dates.endOfMonth.
  by rewrite Hy, Hm.
Qed.

Lemma keeps_without_month_filter (now now' : Dates.Date) (f : Expenses.FilterState)
    (expense : Expenses.Expense) :
  Expenses.dateFilter f ≠ Expenses.month →
  Expenses.keeps now f expense = Expenses.keeps now' f expense.
Proof.
  intros Hf. unfold Expenses.keeps. by destruct (Expenses.dateFilter f).
Qed.

Lemma filter_ext_all {A : Type} (p q : A → bool) (l : list A) :
  (∀ x, p x = q x) → List.filter p l = List.filter q l.
Proof.
  intros Hpq. induction l as [| x l IH]; [done |]. cbn. by rewrite Hpq, IH.
Qed.

(** C9, as the code has it. The filter of the expenses list reads the
    clock while it runs: its result is determined by the cache, the filter
    state and the calendar month of the clock, so evaluations within one
    month agree, and when the date filter is not [month] the result is
    determined by the cache and the filter state alone. The global search
    reads no clock: its results are determined by the caches and the query,
    whatever the component state before, and running it again changes
    nothing. *)
Theorem filters_determined_by_inputs_and_month :
  (∀ (now now' : Dates.Date) (f : Expenses.FilterState) (expenses : list Expenses.Expense),
     Dates.year now = Dates.year now' →
     Dates.month now = Dates.month now' →
     Expenses.filteredExpenses now f expenses = Expenses.filteredExpenses now' f expenses)
  ∧ (∀ (now now' : Dates.Date) (f : Expenses.FilterState)
       (expenses : list Expenses.Expense),
       Expenses.dateFilter f ≠ Expenses.month →
       Expenses.filteredExpenses now f expenses = Expenses.filteredExpenses now' f expenses)
  ∧ (∀ (c : GlobalSearch.Caches) (query : string) (st st' : GlobalSearch.SearchState),
       GlobalSearch.results (GlobalSearch.performSearch c query st)
       = GlobalSearch.results (GlobalSearch.performSearch c query st')
       ∧ GlobalSearch.performSearch c query (GlobalSearch.performSearch c query st)
         = GlobalSearch.performSearch c query st).
Proof.
  split; [| split].
  - intros now now' f expenses Hy Hm. unfold Expenses.filteredExpenses.
    apply filter_ext_all. intros expense. by apply keeps_same_month.
  - intros now now' f expenses Hf. unfold Expenses.filteredExpenses.
    apply filter_ext_all. intros expense. by apply keeps_without_month_filter.
  - intros c query st st'. unfold GlobalSearch.performSearch.
    destruct (Text.blank query); done.
Qed.

Lemma filters_determined_by_inputs_and_month_witness :
  Expenses.filteredExpenses Scenarios.jan20 Scenarios.page_filter [Scenarios.hosting]
  = Expenses.filteredExpenses
      {| Dates.year := 2024; Dates.month := 0; Dates.day := 31; Dates.ms := 86399999 |}
      Scenarios.page_filter [Scenarios.hosting]
  ∧ Expenses.filteredExpenses Scenarios.jan20
      {| Expenses.searchTerm := "host"; Expenses.categoryFilter := None;
         Expenses.statusFilter := Some "paid"; Expenses.dateFilter := Expenses.all |}
      [Scenarios.hosting]
    = Expenses.filteredExpenses Scenarios.feb02
        {| Expenses.searchTerm := "host"; Expenses.categoryFilter := None;
           Expenses.statusFilter := Some "paid"; Expenses.dateFilter := Expenses.all |}
        [Scenarios.hosting].
Proof.
  destruct filters_determined_by_inputs_and_month as (Hmonth & Hother & _).
  split.
  - apply Hmonth; reflexivity.
  - apply Hother. discriminate.
Defined.

(** C9, as the claim states it, fails: with the cache holding one expense
    dated 2024-01-15 and the filter state the page starts with, the filter
    selects the expense when evaluated on 20 January 2024 and selects
    nothing when evaluated on 2 February 2024. *)
Lemma month_filter_depends_on_the_clock :
  Expenses.filteredExpenses Scenarios.jan20 Scenarios.page_filter [Scenarios.hosting]
    = [Scenarios.hosting]
  ∧ Expenses.filteredExpenses Scenarios.feb02 Scenarios.page_filter [Scenarios.hosting]
    = [].
Proof. split; vm_compute; reflexivity. Qed.

End Filters.

(* ===================================================================== *)
(** ** Further facts: the realtime handlers of the chat store *)
(* ===================================================================== *)

Section Handlers.
Import ChatStore.

Lemma filter_absent_value (v : JsVal) (cache : list JsObj) :
  v ∉ ids cache → base.filter (λ n, prop n "id" ≠ v) cache = cache.
Proof.
  unfold ids. induction cache as [| n cache IH]; intros Habsent; [done |].
  cbn in Habsent. apply not_elem_of_cons in Habsent as [Hne Habsent].
  rewrite filter_cons_True.
  - f_equal. apply IH. exact Habsent.
  - intros Heq. apply Hne. by rewrite Heq.
Qed.

Lemma filter_removes_value (v : JsVal) (cache : list JsObj) :
  v ∉ ids (base.filter (λ n, prop n "id" ≠ v) cache).
Proof.
  unfold ids. intros Hin. apply list_elem_of_fmap in Hin as (m & Hid & Hm).
  apply list_elem_of_filter in Hm as [Hne _]. by apply Hne.
Qed.

Lemma filter_after_append (v : JsVal) (cache : list JsObj) (m : JsObj) :
  prop m "id" = v →
  base.filter (λ n, prop n "id" ≠ v) (cache ++ [m])
  = base.filter (λ n, prop n "id" ≠ v) cache.
Proof.
  intros Hid. rewrite filter_app, filter_cons_False, filter_nil.
  - apply app_nil_r.
  - intros Hne. by apply Hne.
Qed.

(** X1. The DELETE handler never fails: afterwards no cached message has
    the identifier of the deleted row, every other message is still there,
    and when no cached message had that identifier the whole store is as
    it was. *)
Theorem on_delete_removes_the_row (old_id : JsVal) (state : ChatState) :
  outcome (on_delete old_id state) = Returned tt
  ∧ (old_id ∉ ids (messages (final (on_delete old_id state))))
  ∧ (∀ m, m ∈ messages (final (on_delete old_id state))
          ↔ m ∈ messages state ∧ prop m "id" ≠ old_id)
  ∧ (old_id ∉ ids (messages state) → final (on_delete old_id state) = state).
Proof.
  split; [done |]. cbn. split; [apply filter_removes_value |]. split.
  - intros m. rewrite list_elem_of_filter. tauto.
  - intros Habsent. rewrite filter_absent_value by done. by destruct state.
Qed.

Lemma on_delete_removes_the_row_witness :
  final (on_delete (JStr "m-9") (Scenarios.chat_with [] [Scenarios.msg_a; Scenarios.msg_b]))
  = Scenarios.chat_with [] [Scenarios.msg_a; Scenarios.msg_b].
Proof.
  apply (on_delete_removes_the_row (JStr "m-9")
           (Scenarios.chat_with [] [Scenarios.msg_a; Scenarios.msg_b])).
  intros Hin. vm_compute in Hin.
  repeat (apply elem_of_cons in Hin as [Hin | Hin]; [discriminate |]).
  by apply elem_of_nil in Hin.
Defined.

(** X2. An insertion event followed by the deletion event of the same row
    gives back the cache there was before, when the row was not cached; when
    a message with that identifier was already cached, the two events
    together remove it. *)
Theorem insert_then_delete (message : JsObj) (state : ChatState) :
  (prop message "id" ∉ ids (messages state) →
     final (on_delete (prop message "id") (final (addMessage message state))) = state)
  ∧ messages (final (on_delete (prop message "id") (final (addMessage message state))))
    = messages (final (on_delete (prop message "id") state)).
Proof.
  split.
  - intros Habsent. cbn. unfold addMessage_update.
    destruct (existsb _ (messages state)) eqn:Hex.
    + apply id_present_existsb in Hex. contradiction.
    + cbn. rewrite filter_after_append by done.
      rewrite filter_absent_value by done. by destruct state.
  - cbn. unfold addMessage_update.
    destruct (existsb _ (messages state)); [done |].
    cbn. by rewrite filter_after_append.
Qed.

Lemma insert_then_delete_witness :
  final (on_delete (prop Scenarios.msg_a "id")
           (final (addMessage Scenarios.msg_a (Scenarios.chat_with [] [Scenarios.msg_b]))))
  = Scenarios.chat_with [] [Scenarios.msg_b].
Proof.
  apply (insert_then_delete Scenarios.msg_a (Scenarios.chat_with [] [Scenarios.msg_b])).
  intros Hin. vm_compute in Hin.
  repeat (apply elem_of_cons in Hin as [Hin | Hin]; [discriminate |]).
  by apply elem_of_nil in Hin.
Defined.

(** X3. The INSERT handler sends exactly one point read for the row of the
    event. When the read gives a row, the row is merged with [addMessage];
    when it gives an error response, nothing changes; when it rejects,
    the handler itself throws, since nothing in it catches, and the store
    is unchanged. In every case the cache afterwards is the cache before,
    followed by at most the row read, and distinct identifiers stay
    distinct. *)
Theorem on_insert_merges_the_row_read (sb : Supabase) (new_id : string) (state : ChatState) :
  requests (trace (on_insert sb new_id state))
  = [single (eq "id" new_id (select message_columns (from "chat_messages")))]
  ∧ match run_single sb
            (single (eq "id" new_id (select message_columns (from "chat_messages")))) with
    | Resolved (PgSuccess data) =>
        outcome (on_insert sb new_id state) = Returned tt
        ∧ final (on_insert sb new_id state) = final (addMessage data state)
        ∧ (messages (final (on_insert sb new_id state)) = messages state
           ∨ messages (final (on_insert sb new_id state)) = messages state ++ [data])
    | Resolved (PgFailure _) =>
        outcome (on_insert sb new_id state) = Returned tt
        ∧ final (on_insert sb new_id state) = state
    | Rejected e =>
        outcome (on_insert sb new_id state) = Thrown e
        ∧ final (on_insert sb new_id state) = state
    end
  ∧ (NoDup (ids (messages state)) →
       NoDup (ids (messages (final (on_insert sb new_id state))))).
Proof.
  unfold on_insert. unfold_action.
  destruct (run_single sb _) as [[data | e] | e]; cbn; repeat split; try done.
  - unfold addMessage_update. destruct (existsb _ (messages state)); [by left | by right].
  - apply addMessage_update_NoDup.
Qed.

Lemma on_insert_merges_the_row_read_witness :
  NoDup (ids (messages (final (on_insert (Scenarios.backend Scenarios.msg_a []) "m-1"
                                 (Scenarios.chat_with [] [Scenarios.msg_b]))))).
Proof.
  apply (on_insert_merges_the_row_read (Scenarios.backend Scenarios.msg_a []) "m-1"
           (Scenarios.chat_with [] [Scenarios.msg_b])).
  apply NoDup_singleton.
Defined.

End Handlers.

(* ===================================================================== *)
(** ** Further facts: the actions of the chat store *)
(* ===================================================================== *)

Section ChatActions.
Import ChatStore.

Lemma edited_keeps_id (w : World) (content : string) (m : JsObj) :
  prop (<["edited_at" := JStr (now_iso w)]> (<["content" := JStr content]> m)) "id"
  = prop m "id".
Proof. unfold prop. by simplify_map_eq. Qed.

Lemma editMessage_update_ids (w : World) (messageId content : string) (state : ChatState) :
  ids (messages (editMessage_update w messageId content state)) = ids (messages state).
Proof.
  unfold editMessage_update, ids. cbn. rewrite map_map. apply map_ext. intros m.
  destruct (strict_eq (prop m "id") (JStr messageId)); [apply edited_keeps_id | done].
Qed.

(** X4. In demo mode [sendMessage], [editMessage] and [deleteMessage] return
    success at once: they make no call to the outside and leave the store
    untouched, so a message cached in demo mode is neither edited nor
    removed by them. *)
Theorem demo_chat_mutations_do_nothing (w : World) (state : ChatState) :
  connected w = None →
  (∀ channelId content messageType codeLanguage,
     sendMessage w channelId content messageType codeLanguage state
     = (Returned {| error := None |}, state, []))
  ∧ (∀ messageId content,
       editMessage w messageId content state = (Returned {| error := None |}, state, []))
  ∧ (∀ messageId,
       deleteMessage w messageId state = (Returned {| error := None |}, state, [])).
Proof.
  intros Hc. unfold sendMessage, editMessage, deleteMessage. rewrite Hc. done.
Qed.

Lemma demo_chat_mutations_do_nothing_witness :
  messages (final (deleteMessage Scenarios.demo_world "m-1"
                     (Scenarios.chat_with [] [Scenarios.msg_a])))
  = [Scenarios.msg_a].
Proof.
  destruct (demo_chat_mutations_do_nothing Scenarios.demo_world
              (Scenarios.chat_with [] [Scenarios.msg_a]) eq_refl) as (_ & _ & Hdelete).
  by rewrite (Hdelete "m-1").
Defined.

(** X5. [sendMessage] never writes the store and never throws. Without a
    signed-in user it sends nothing to the backend and returns the error
    [No autenticado]; with one, it submits exactly one row, whose author is
    that user and whose code language is [null] when none, or an empty
    one, was given, and it returns the error of the backend, if any. *)
Theorem sendMessage_leaves_the_cache_to_the_feed
    (w : World) (sb : Supabase) (channelId content : string)
    (messageType codeLanguage : option string) (state : ChatState) :
  connected w = Some sb →
  final (sendMessage w channelId content messageType codeLanguage state) = state
  ∧ (∃ r, outcome (sendMessage w channelId content messageType codeLanguage state)
          = Returned r)
  ∧ (auth_getUser sb = Resolved None →
       outcome (sendMessage w channelId content messageType codeLanguage state)
         = Returned {| error := Some "No autenticado" |}
       ∧ requests (trace (sendMessage w channelId content messageType codeLanguage state))
         = [])
  ∧ (∀ user, auth_getUser sb = Resolved (Some user) →
       ∃ row,
         submitted (trace (sendMessage w channelId content messageType codeLanguage state))
           = [row]
         ∧ row !! "user_id" = Some (prop user "id")
         ∧ row !! "channel_id" = Some (JStr channelId)
         ∧ row !! "code_language" ≠ Some (JStr "")
         ∧ (codeLanguage = None ∨ codeLanguage = Some "" →
              row !! "code_language" = Some JNull)
         ∧ outcome (sendMessage w channelId content messageType codeLanguage state)
           = Returned {| error :=
                message <$> match run sb (send_message_query channelId (prop user "id")
                                            content (default "text" messageType)
                                            codeLanguage) with
                            | Resolved (PgSuccess _) => None
                            | Resolved (PgFailure e) | Rejected e => Some e
                            end |}).
Proof.
  intros Hc. unfold sendMessage. rewrite Hc. unfold_action.
  split; [| split; [| split]].
  - destruct (auth_getUser sb) as [[user |] | e]; try done.
    by destruct (run sb _) as [[? | ?] | ?].
  - destruct (auth_getUser sb) as [[user |] | e]; try by eexists.
    destruct (run sb _) as [[? | ?] | ?]; by eexists.
  - by intros ->.
  - intros user ->.
    exists (list_to_map [("channel_id", JStr channelId); ("user_id", prop user "id");
                         ("content", JStr content);
                         ("message_type", JStr (default "text" messageType));
                         ("code_language", or_null codeLanguage)]).
    split; [| split; [| split; [| split; [| split]]]].
    + unfold send_message_query. by destruct (run sb _) as [[? | ?] | ?].
    + done.
    + done.
    + change (Some (or_null codeLanguage) ≠ Some (JStr "")).
      destruct codeLanguage as [[| c l] |]; cbn; done.
    + intros [-> | ->]; done.
    + by destruct (run sb _) as [[? | ?] | ?].
Qed.

Lemma sendMessage_leaves_the_cache_to_the_feed_witness :
  final (sendMessage (Scenarios.world (Some (Scenarios.backend Scenarios.msg_a []))
                                      Scenarios.notify_ok)
                     "c-1" "hola" None None (Scenarios.chat_with [] [Scenarios.msg_b]))
  = Scenarios.chat_with [] [Scenarios.msg_b].
Proof.
  apply (sendMessage_leaves_the_cache_to_the_feed
           (Scenarios.world (Some (Scenarios.backend Scenarios.msg_a [])) Scenarios.notify_ok)
           (Scenarios.backend Scenarios.msg_a []) "c-1" "hola" None None
           (Scenarios.chat_with [] [Scenarios.msg_b]) eq_refl).
Defined.

(** X6. In connected mode [editMessage] never throws and never adds,
    removes, reorders or renames a cached message: the identifiers of the
    cache are the same before and after. When the backend accepts the edit,
    every cached message with that identifier gets the new content and the
    others are untouched; when the backend refuses it or the request
    rejects, the error is returned and the store is unchanged. *)
Theorem editMessage_keeps_the_identifiers
    (w : World) (sb : Supabase) (messageId content : string) (state : ChatState) :
  connected w = Some sb →
  ids (messages (final (editMessage w messageId content state))) = ids (messages state)
  ∧ match run sb (edit_message_query w messageId content) with
    | Resolved (PgSuccess _) =>
        outcome (editMessage w messageId content state) = Returned {| error := None |}
        ∧ Forall2 (λ before after,
                     if decide (prop before "id" = JStr messageId)
                     then prop after "content" = JStr content
                          ∧ prop after "edited_at" = JStr (now_iso w)
                     else after = before)
                  (messages state)
                  (messages (final (editMessage w messageId content state)))
    | Resolved (PgFailure e) | Rejected e =>
        outcome (editMessage w messageId content state)
          = Returned {| error := Some (message e) |}
        ∧ final (editMessage w messageId content state) = state
    end.
Proof.
  intros Hc. unfold editMessage. rewrite Hc. unfold_action.
  destruct (run sb _) as [[data | e] | e]; cbn; try done.
  split; [apply editMessage_update_ids |]. split; [done |].
  induction (messages state) as [| m ms IH]; [constructor |].
  cbn. constructor; [| exact IH].
  rewrite strict_eq_decide.
  destruct (decide (prop m "id" = JStr messageId)); [| done].
  unfold prop. by simplify_map_eq.
Qed.

Lemma editMessage_keeps_the_identifiers_witness :
  ids (messages (final (editMessage
                          (Scenarios.world (Some (Scenarios.failing_backend "row not found"))
                                           Scenarios.notify_ok)
                          "m-1" "adiós" (Scenarios.chat_with [] [Scenarios.msg_a]))))
  = ids [Scenarios.msg_a].
Proof.
  apply (editMessage_keeps_the_identifiers
           (Scenarios.world (Some (Scenarios.failing_backend "row not found"))
                            Scenarios.notify_ok)
           (Scenarios.failing_backend "row not found") "m-1" "adiós"
           (Scenarios.chat_with [] [Scenarios.msg_a]) eq_refl).
Defined.





End ChatActions.

(* ===================================================================== *)
(** ** Further facts: failures of the mutating actions *)
(* ===================================================================== *)

(** Splits on every awaited answer and on every guard of a store action. *)
Ltac split_action :=
  unfold_action;
  repeat match goal with
         | |- context [match ?x with _ => _ end] =>
             lazymatch x with
             | run _ _ => destruct x as [[?|?]|?] eqn:?
             | run_single _ _ => destruct x as [[?|?]|?] eqn:?
             | auth_getUser _ => destruct x as [?|?] eqn:?
             | createNotification _ _ => destruct x as [?|?] eqn:?
             | NotesStore.notifies_on_create _ => destruct x eqn:?
             | NotesStore.notifies_on_update _ _ => destruct x eqn:?
             | PersonalNotesStore.none_remaining _ => destruct x eqn:?
             end
         end.

Ltac close_clean :=
  eexists; split; [reflexivity | cbn; try done; intros Herr; by destruct Herr].

Section Mutations.
Import NotesStore.

(** X9. Every mutating action of the three stores reports a failure
    through its result and never throws, whatever the backend, the session
    lookup and the notification helper answer; and an action that returns
    an error has not touched the store: there is no partial update. *)
Theorem mutations_fail_cleanly (w : World) :
  (∀ note st, fails_cleanly (createNote w note st) st)
  ∧ (∀ id updates st, fails_cleanly (updateNote w id updates st) st)
  ∧ (∀ id st, fails_cleanly (deleteNote w id st) st)
  ∧ (∀ id updates st, fails_cleanly (PersonalNotesStore.updateNote w id updates st) st)
  ∧ (∀ id st, fails_cleanly (PersonalNotesStore.deleteNote w id st) st)
  ∧ (∀ noteId userId st, fails_cleanly (PersonalNotesStore.unshareNote w noteId userId st) st)
  ∧ (∀ title content st,
       ∃ res, outcome (PersonalNotesStore.createNote w title content st) = Returned res
         ∧ (PersonalNotesStore.error res ≠ None →
              final (PersonalNotesStore.createNote w title content st) = st))
  ∧ (∀ channelId content messageType codeLanguage st,
       fails_cleanly (ChatStore.sendMessage w channelId content messageType codeLanguage st) st)
  ∧ (∀ messageId content st, fails_cleanly (ChatStore.editMessage w messageId content st) st)
  ∧ (∀ messageId st, fails_cleanly (ChatStore.deleteMessage w messageId st) st)
  ∧ (∀ name description type st,
       fails_cleanly (ChatStore.createChannel w name description type st) st).
Proof.
  unfold fails_cleanly.
  repeat match goal with |- _ ∧ _ => split end; intros.
  - unfold createNote. destruct (connected w); split_action; close_clean.
  - unfold updateNote. destruct (connected w); split_action; close_clean.
  - unfold deleteNote. destruct (connected w); split_action; close_clean.
  - unfold PersonalNotesStore.updateNote. destruct (connected w); split_action; close_clean.
  - unfold PersonalNotesStore.deleteNote. destruct (connected w); split_action; close_clean.
  - unfold PersonalNotesStore.unshareNote. destruct (connected w); split_action; close_clean.
  - unfold PersonalNotesStore.createNote. destruct (connected w); split_action; close_clean.
  - unfold ChatStore.sendMessage. destruct (connected w) as [sb |]; [| close_clean].
    unfold_action. destruct (auth_getUser sb) as [[user |] | e]; split_action; close_clean.
  - unfold ChatStore.editMessage. destruct (connected w); split_action; close_clean.
  - unfold ChatStore.deleteMessage. destruct (connected w); split_action; close_clean.
  - unfold ChatStore.createChannel. destruct (connected w); split_action; close_clean.
Qed.

Lemma mutations_fail_cleanly_witness :
  ∃ res,
    outcome (deleteNote
               (Scenarios.world (Some (Scenarios.failing_backend "permission denied"))
                                Scenarios.notify_ok)
               "n-1" (Scenarios.notes_with [Scenarios.task_bob] (Some Scenarios.task_bob)))
    = Returned res
    ∧ final (deleteNote
               (Scenarios.world (Some (Scenarios.failing_backend "permission denied"))
                                Scenarios.notify_ok)
               "n-1" (Scenarios.notes_with [Scenarios.task_bob] (Some Scenarios.task_bob)))
      = Scenarios.notes_with [Scenarios.task_bob] (Some Scenarios.task_bob).
Proof.
  destruct (mutations_fail_cleanly
              (Scenarios.world (Some (Scenarios.failing_backend "permission denied"))
                               Scenarios.notify_ok)) as (_ & _ & Hdelete & _).
  destruct (Hdelete "n-1" (Scenarios.notes_with [Scenarios.task_bob]
                                                (Some Scenarios.task_bob)))
    as (res & Hout & Hclean).
  exists res. split; [exact Hout |]. apply Hclean.
  vm_compute in Hout. injection Hout as <-. discriminate.
Defined.

End Mutations.

(* ===================================================================== *)
(** ** Further facts: the notes store *)
(* ===================================================================== *)

Section NotesActions.
Import NotesStore.

Lemma cleanedNote_assignee (note : JsObj) :
  prop (cleanedNote note) "assigned_to" = or_else (prop note "assigned_to") JNull.
Proof.
  unfold prop at 1. rewrite (cleanedNote_lookup note "assigned_to"); [done |].
  unfold relational_fields. apply list_elem_of_here.
Qed.

Lemma cleanedNote_creator (note : JsObj) :
  prop (cleanedNote note) "created_by" = prop note "created_by".
Proof. unfold cleanedNote, prop. by simplify_map_eq. Qed.

Lemma createNote_quiet (w : World) (sb : Supabase) (note : JsObj) (st : NotesState) :
  connected w = Some sb →
  notifies_on_create (cleanedNote note) = false →
  notifications (trace (createNote w note st)) = [].
Proof.
  intros Hc Hquiet. unfold createNote. rewrite Hc. unfold_action. rewrite Hquiet.
  by destruct (run_single sb _) as [[data | e] | e].
Qed.

(** X10. In connected mode, when the backend accepts the insert and the
    session lookup resolves, [createNote] hands over exactly one
    notification if the note is assigned to a non-empty user other than its
    creator: it is addressed to the assignee, is about the inserted row,
    and comes after the insert. A note left unassigned, or assigned to its
    own creator, gives no notification; neither does an insert that the
    backend refuses or that rejects, after which nothing else is called. *)
Theorem createNote_notifies_the_assignee
    (w : World) (sb : Supabase) (note : JsObj) (st : NotesState) :
  connected w = Some sb →
  (∀ data user assignee,
     run_single sb (insert_note_query (cleanedNote note)) = Resolved (PgSuccess data) →
     auth_getUser sb = Resolved user →
     note !! "assigned_to" = Some (JStr assignee) →
     assignee ≠ "" →
     prop note "created_by" ≠ JStr assignee →
     ∃ notice,
       trace (createNote w note st)
         = [EvQuery (insert_note_query (cleanedNote note)); EvGetUser; EvNotify notice]
       ∧ userId notice = JStr assignee
       ∧ noteId notice = prop data "id"
       ∧ fromUserId notice = opt_prop user "id")
  ∧ (left_blank note "assigned_to" ∨ prop note "assigned_to" = prop note "created_by" →
       notifications (trace (createNote w note st)) = [])
  ∧ (∀ e, run_single sb (insert_note_query (cleanedNote note)) = Resolved (PgFailure e)
          ∨ run_single sb (insert_note_query (cleanedNote note)) = Rejected e →
          trace (createNote w note st) = [EvQuery (insert_note_query (cleanedNote note))]).
Proof.
  intros Hc. split; [| split].
  - intros data user assignee Hins Huser Hset Hne Hother.
    assert (Hassignee : prop (cleanedNote note) "assigned_to" = JStr assignee).
    { rewrite cleanedNote_assignee. unfold prop. rewrite Hset. unfold or_else. cbn.
      apply String.eqb_neq in Hne. by rewrite Hne. }
    assert (Hguard : notifies_on_create (cleanedNote note) = true).
    { unfold notifies_on_create, strict_eq. rewrite Hassignee, cleanedNote_creator. cbn.
      apply String.eqb_neq in Hne. rewrite Hne. cbn.
      rewrite bool_decide_eq_false_2; [done | congruence]. }
    exists (created_notice (cleanedNote note) data user).
    split; [| by split].
    unfold createNote. rewrite Hc. unfold_action. rewrite Hins, Hguard, Huser.
    by destruct (createNotification w _).
  - intros Hnone. apply (createNote_quiet w sb); [done |].
    unfold notifies_on_create, strict_eq. rewrite cleanedNote_assignee, cleanedNote_creator.
    destruct Hnone as [Hblank | Hself].
    + assert (Hnull : or_else (prop note "assigned_to") JNull = JNull).
      { unfold prop. by destruct Hblank as [-> | ->]. }
      by rewrite Hnull.
    + rewrite <- Hself. unfold or_else.
      destruct (truthy (prop note "assigned_to")) eqn:Hv; [| done].
      rewrite Hv. cbn. by rewrite bool_decide_eq_true_2.
  - intros e Hfail. unfold createNote. rewrite Hc. unfold_action.
    by destruct Hfail as [-> | ->].
Qed.

Lemma createNote_notifies_the_assignee_witness :
  (∃ notice,
     trace (createNote (Scenarios.world (Some (Scenarios.backend Scenarios.task_bob []))
                                        Scenarios.notify_ok)
                       Scenarios.task_bob (Scenarios.notes_with [] None))
     = [EvQuery (insert_note_query (cleanedNote Scenarios.task_bob)); EvGetUser;
        EvNotify notice]
     ∧ userId notice = JStr "bob")
  ∧ notifications
      (trace (createNote (Scenarios.world (Some (Scenarios.backend Scenarios.task_bob []))
                                          Scenarios.notify_ok)
                         Scenarios.task_own (Scenarios.notes_with [] None)))
    = []
  ∧ trace (createNote (Scenarios.world (Some (Scenarios.failing_backend "permission denied"))
                                       Scenarios.notify_ok)
                      Scenarios.task_bob (Scenarios.notes_with [] None))
    = [EvQuery (insert_note_query (cleanedNote Scenarios.task_bob))].
Proof.
  split; [| split].
  - destruct (createNote_notifies_the_assignee
                (Scenarios.world (Some (Scenarios.backend Scenarios.task_bob []))
                                 Scenarios.notify_ok)
                (Scenarios.backend Scenarios.task_bob []) Scenarios.task_bob
                (Scenarios.notes_with [] None) eq_refl) as (Hone & _ & _).
    destruct (Hone Scenarios.task_bob (Some (list_to_map [("id", JStr "alice")])) "bob"
                   eq_refl eq_refl eq_refl) as (notice & Htrace & Hto & _).
    + discriminate.
    + vm_compute. discriminate.
    + by exists notice.
  - destruct (createNote_notifies_the_assignee
                (Scenarios.world (Some (Scenarios.backend Scenarios.task_bob []))
                                 Scenarios.notify_ok)
                (Scenarios.backend Scenarios.task_bob []) Scenarios.task_own
                (Scenarios.notes_with [] None) eq_refl) as (_ & Hnone & _).
    apply Hnone. right. reflexivity.
  - destruct (createNote_notifies_the_assignee
                (Scenarios.world (Some (Scenarios.failing_backend "permission denied"))
                                 Scenarios.notify_ok)
                (Scenarios.failing_backend "permission denied") Scenarios.task_bob
                (Scenarios.notes_with [] None) eq_refl) as (_ & _ & Hfail).
    apply (Hfail {| message := "permission denied" |}). left. reflexivity.
Defined.

(** X11. In demo mode [createNote] calls nothing outside and always
    succeeds. The note it caches has a generated identifier, whatever
    identifier the caller gave, and exactly eleven properties: what the
    caller supplied beyond them, the assignee and the parent among it, is
    dropped. A status, priority or type the caller left out or empty
    becomes [pending], [medium] and [note]; a non-empty one is kept. *)
Theorem demo_createNote_builds_a_local_note (w : World) (note : JsObj) (st : NotesState) :
  connected w = None →
  createNote w note st
    = (Returned {| error := None |}, set_notes (demo_note w note :: notes st) st, [])
  ∧ prop (demo_note w note) "id" = JStr (generateId w)
  ∧ dom (demo_note w note)
    = list_to_set ["id"; "title"; "content"; "type"; "status"; "priority"; "project";
                   "created_by"; "created_at"; "updated_at"; "tags"]
  ∧ demo_note w note !! "assigned_to" = None
  ∧ demo_note w note !! "parent_id" = None
  ∧ (left_blank note "status" → prop (demo_note w note) "status" = JStr "pending")
  ∧ (left_blank note "priority" → prop (demo_note w note) "priority" = JStr "medium")
  ∧ (left_blank note "type" → prop (demo_note w note) "type" = JStr "note")
  ∧ (∀ k v, k ∈ ["title"; "content"; "type"; "status"; "priority"; "created_by"] →
       note !! k = Some (JStr v) → v ≠ "" → prop (demo_note w note) k = JStr v).
Proof.
  intros Hc. split; [by unfold createNote; rewrite Hc |].
  split; [done |]. split.
  { unfold demo_note. rewrite dom_list_to_map_L. done. }
  split; [done |]. split; [done |].
  assert (Hblank : ∀ k d, left_blank note k → or_else (prop note k) d = d).
  { intros k d [Hk | Hk]; unfold prop; by rewrite Hk. }
  split; [| split; [| split]].
  - intros Hb. unfold demo_note, prop at 1. simplify_map_eq. by apply Hblank.
  - intros Hb. unfold demo_note, prop at 1. simplify_map_eq. by apply Hblank.
  - intros Hb. unfold demo_note, prop at 1. simplify_map_eq. by apply Hblank.
  - intros k v Hk Hv Hne.
    assert (Hkeep : ∀ d, or_else (prop note k) d = JStr v).
    { intros d. unfold prop. rewrite Hv. unfold or_else. cbn.
      apply String.eqb_neq in Hne. by rewrite Hne. }
    repeat (apply elem_of_cons in Hk as [-> | Hk];
            [unfold demo_note, prop at 1; simplify_map_eq; by apply Hkeep |]).
    by apply elem_of_nil in Hk.
Qed.

Lemma demo_createNote_builds_a_local_note_witness :
  createNote Scenarios.demo_world Scenarios.task_bob (Scenarios.notes_with [] None)
  = (Returned {| error := None |},
     set_notes [demo_note Scenarios.demo_world Scenarios.task_bob]
               (Scenarios.notes_with [] None),
     [])
  ∧ prop (demo_note Scenarios.demo_world Scenarios.task_bob) "status" = JStr "pending".
Proof.
  destruct (demo_createNote_builds_a_local_note Scenarios.demo_world Scenarios.task_bob
              (Scenarios.notes_with [] None) eq_refl)
    as (Hrun & _ & _ & _ & _ & Hstatus & _).
  split; [exact Hrun |]. apply Hstatus. left. reflexivity.
Defined.

End NotesActions.

Section NotesCacheShape.
Import NotesStore.

Lemma same_but_for_refl (id : string) (cache : list JsObj) : same_but_for id cache cache.
Proof. unfold same_but_for. induction cache; by constructor. Qed.

Lemma same_but_for_rewrite (id : string) (f : JsObj → JsObj) (cache : list JsObj) :
  same_but_for id cache
    (map (λ n, if strict_eq (prop n "id") (JStr id) then f n else n) cache).
Proof.
  unfold same_but_for. induction cache as [| n cache IH]; [constructor |].
  cbn. constructor; [| exact IH].
  rewrite strict_eq_decide. by destruct (decide (prop n "id" = JStr id)).
Qed.

Lemma same_but_for_absent (id : string) (before after : list JsObj) :
  same_but_for id before after → JStr id ∉ ids before → after = before.
Proof.
  unfold same_but_for, ids. induction 1 as [| b a before after Hba _ IH]; [done |].
  cbn. intros Habsent. apply not_elem_of_cons in Habsent as [Hne Habsent].
  f_equal; [apply Hba; congruence | by apply IH].
Qed.

(** How [updateNote] can leave the store, over all its branches. *)
Lemma updateNote_final_cases (w : World) (id : string) (updates : JsObj) (st : NotesState) :
  final (updateNote w id updates st) = st
  ∨ (∃ data, final (updateNote w id updates st) = updateNote_update id data st)
  ∨ (connected w = None
     ∧ notes (final (updateNote w id updates st))
       = map (λ n, if strict_eq (prop n "id") (JStr id)
                   then <["updated_at" := JStr (now_iso w)]> (spread n updates) else n)
             (notes st)
     ∧ selectedNote (final (updateNote w id updates st))
       = (if strict_eq (opt_prop (selectedNote st) "id") (JStr id)
          then (λ sel, spread sel updates) <$> selectedNote st else selectedNote st)
     ∧ filter (final (updateNote w id updates st)) = filter st).
Proof.
  unfold updateNote. destruct (connected w) as [sb |].
  - split_action; cbn; try (by left); right; left; by eexists.
  - right. right. done.
Qed.

(** X12. In both modes and whatever the backend answers, [updateNote]
    neither adds nor removes nor reorders cached notes, and rewrites only
    entries whose identifier is the one given: an update of a note the
    cache does not hold leaves the cache as it is (the updated row is not
    inserted). The selected note changes only if it has that identifier,
    and the filter never changes. *)
Theorem updateNote_keeps_the_shape_of_the_cache
    (w : World) (id : string) (updates : JsObj) (st : NotesState) :
  same_but_for id (notes st) (notes (final (updateNote w id updates st)))
  ∧ length (notes (final (updateNote w id updates st))) = length (notes st)
  ∧ (JStr id ∉ ids (notes st) → notes (final (updateNote w id updates st)) = notes st)
  ∧ (opt_prop (selectedNote st) "id" ≠ JStr id →
       selectedNote (final (updateNote w id updates st)) = selectedNote st)
  ∧ filter (final (updateNote w id updates st)) = filter st.
Proof.
  assert (Hshape : same_but_for id (notes st) (notes (final (updateNote w id updates st)))).
  { destruct (updateNote_final_cases w id updates st)
      as [-> | [[data ->] | (_ & -> & _)]].
    - apply same_but_for_refl.
    - apply same_but_for_rewrite.
    - apply (same_but_for_rewrite id
               (λ n, <["updated_at" := JStr (now_iso w)]> (spread n updates))). }
  split; [exact Hshape |]. split; [symmetry; by eapply Forall2_length |].
  split; [by apply same_but_for_absent |].
  destruct (updateNote_final_cases w id updates st)
    as [-> | [[data ->] | (_ & _ & -> & ->)]]; cbn; split; try done.
  - intros Hne. rewrite strict_eq_decide.
    by destruct (decide (opt_prop (selectedNote st) "id" = JStr id)).
  - intros Hne. rewrite strict_eq_decide.
    by destruct (decide (opt_prop (selectedNote st) "id" = JStr id)).
Qed.

Lemma updateNote_keeps_the_shape_of_the_cache_witness :
  notes (final (updateNote
                  (Scenarios.world (Some Scenarios.backend_reassigning) Scenarios.notify_ok)
                  "n-7" {[ "assigned_to" := JStr "carol" ]}
                  (Scenarios.notes_with [Scenarios.task_bob] None)))
  = [Scenarios.task_bob].
Proof.
  destruct (updateNote_keeps_the_shape_of_the_cache
              (Scenarios.world (Some Scenarios.backend_reassigning) Scenarios.notify_ok)
              "n-7" {[ "assigned_to" := JStr "carol" ]}
              (Scenarios.notes_with [Scenarios.task_bob] None)) as (_ & _ & Habsent & _).
  apply Habsent. intros Hin. vm_compute in Hin.
  repeat (apply elem_of_cons in Hin as [Hin | Hin]; [discriminate |]).
  by apply elem_of_nil in Hin.
Defined.

(** X13. [setFilter] merges the partial filter into the current one, a
    property left out keeping its value, and then fetches. In connected
    mode the one read it sends is built from the merged filter; when that
    read succeeds the cache becomes exactly the rows read, and when it
    fails the cache keeps the rows of the old filter although the new
    filter is in place. In demo mode nothing is read and the cached notes
    are not filtered at all. The selected note is never touched, so it can
    end up outside the cache. *)
Theorem setFilter_fetches_with_the_merged_filter
    (w : World) (p : PartialFilter) (st : NotesState) :
  outcome (setFilter w p st) = Returned tt
  ∧ filter (final (setFilter w p st)) = merge_filter (filter st) p
  ∧ selectedNote (final (setFilter w p st)) = selectedNote st
  ∧ (p_type p = None → type (filter (final (setFilter w p st))) = type (filter st))
  ∧ (p_status p = None → status (filter (final (setFilter w p st))) = status (filter st))
  ∧ (p_priority p = None →
       priority (filter (final (setFilter w p st))) = priority (filter st))
  ∧ (p_search p = None → search (filter (final (setFilter w p st))) = search (filter st))
  ∧ match connected w with
    | None =>
        notes (final (setFilter w p st)) = notes st ∧ trace (setFilter w p st) = []
    | Some sb =>
        requests (trace (setFilter w p st)) = [notes_query (merge_filter (filter st) p)]
        ∧ notes (final (setFilter w p st))
          = match run sb (notes_query (merge_filter (filter st) p)) with
            | Resolved (PgSuccess data) => default [] data
            | _ => notes st
            end
    end.
Proof.
  unfold setFilter, fetchNotes. destruct (connected w) as [sb |].
  - unfold_action. cbn.
    destruct (run sb _) as [[data | e] | e]; cbn; repeat split; try done;
      intros Hleft; destruct p; cbn in *; by subst.
  - cbn. repeat split; try done; intros Hleft; destruct p; cbn in *; by subst.
Qed.

Lemma setFilter_fetches_with_the_merged_filter_witness :
  type (filter (final (setFilter Scenarios.connected_world Scenarios.only_done
                         (Scenarios.notes_with [Scenarios.task_bob] None))))
  = None.
Proof.
  destruct (setFilter_fetches_with_the_merged_filter Scenarios.connected_world
              Scenarios.only_done (Scenarios.notes_with [Scenarios.task_bob] None))
    as (_ & _ & _ & Htype & _).
  by apply Htype.
Defined.

End NotesCacheShape.

(* ===================================================================== *)
(** ** Further facts: the personal notes store *)
(* ===================================================================== *)

Section PersonalActions.
Import PersonalNotesStore.

(** X14. A successful [fetchNotes] of the personal notes store splits the
    rows read by owner: the notes owned by the signed-in user go to
    [notes], all the others to [sharedWithMe], nothing is lost or
    duplicated, and each list keeps the order of the rows. When the read
    fails, or the session lookup that follows it rejects, both lists are
    kept as they were and the failure is logged. *)
Theorem fetchNotes_splits_the_rows_by_owner
    (w : World) (sb : Supabase) (st : PersonalNotesState) :
  connected w = Some sb →
  (∀ rows user,
     run sb own_notes_query = Resolved (PgSuccess (Some rows)) →
     auth_getUser sb = Resolved user →
     notes (final (fetchNotes w st)) ++ sharedWithMe (final (fetchNotes w st)) ≡ₚ rows
     ∧ Forall (λ n, prop n "owner_id" = opt_prop user "id") (notes (final (fetchNotes w st)))
     ∧ Forall (λ n, prop n "owner_id" ≠ opt_prop user "id")
              (sharedWithMe (final (fetchNotes w st)))
     ∧ notes (final (fetchNotes w st)) `sublist_of` rows
     ∧ sharedWithMe (final (fetchNotes w st)) `sublist_of` rows
     ∧ isLoading (final (fetchNotes w st)) = false)
  ∧ (∀ e,
       read_fails sb own_notes_query e
       ∨ ((∃ data, run sb own_notes_query = Resolved (PgSuccess data))
          ∧ auth_getUser sb = Rejected e) →
       final (fetchNotes w st) = set_isLoading false st
       ∧ EvConsoleError "Error fetching personal notes:" e ∈ trace (fetchNotes w st))
  ∧ outcome (fetchNotes w st) = Returned tt.
Proof.
  intros Hc. unfold fetchNotes. rewrite Hc. unfold_action. split; [| split].
  - intros rows user -> ->. cbn. repeat split.
    + apply filter_app_complement.
    + apply Forall_forall. intros n Hn. by apply list_elem_of_filter in Hn as [? _].
    + apply Forall_forall. intros n Hn. by apply list_elem_of_filter in Hn as [? _].
    + apply sublist_filter.
    + apply sublist_filter.
  - intros e [[-> | ->] | [[data ->] ->]]; cbn; (split; [done |]).
    + apply list_elem_of_further, list_elem_of_here.
    + apply list_elem_of_further, list_elem_of_here.
    + apply list_elem_of_further, list_elem_of_further, list_elem_of_here.
  - by destruct (run sb own_notes_query) as [[data | e] | e];
      [destruct (auth_getUser sb) | |].
Qed.

Lemma fetchNotes_splits_the_rows_by_owner_witness :
  notes (final (fetchNotes
                  (Scenarios.world
                     (Some (Scenarios.backend Scenarios.mine
                              [Scenarios.mine; Scenarios.shared_by_bob]))
                     Scenarios.notify_ok)
                  (Scenarios.personal_with [])))
  ++ sharedWithMe
       (final (fetchNotes
                 (Scenarios.world
                    (Some (Scenarios.backend Scenarios.mine
                             [Scenarios.mine; Scenarios.shared_by_bob]))
                    Scenarios.notify_ok)
                 (Scenarios.personal_with [])))
  ≡ₚ [Scenarios.mine; Scenarios.shared_by_bob].
Proof.
  destruct (fetchNotes_splits_the_rows_by_owner
              (Scenarios.world
                 (Some (Scenarios.backend Scenarios.mine
                          [Scenarios.mine; Scenarios.shared_by_bob]))
                 Scenarios.notify_ok)
              (Scenarios.backend Scenarios.mine [Scenarios.mine; Scenarios.shared_by_bob])
              (Scenarios.personal_with []) eq_refl) as [Hsplit _].
  apply (Hsplit [Scenarios.mine; Scenarios.shared_by_bob]
                (Some (list_to_map [("id", JStr "alice")])) eq_refl eq_refl).
Defined.

Lemma touch_same_but_for (w : World) (id : string) (updates : JsObj) (cache : list JsObj) :
  same_but_for id cache (map (touch w id updates) cache).
Proof.
  unfold same_but_for, touch. induction cache as [| n cache IH]; [constructor |].
  cbn. constructor; [| exact IH].
  rewrite strict_eq_decide. by destruct (decide (prop n "id" = JStr id)).
Qed.

Lemma touch_merges (w : World) (id : string) (updates n : JsObj) (k : string) (v : JsVal) :
  prop n "id" = JStr id → k ≠ "updated_at" → updates !! k = Some v →
  touch w id updates n !! k = Some v.
Proof.
  intros Hid Hk Hv. unfold touch, strict_eq, spread.
  rewrite bool_decide_eq_true_2 by done.
  rewrite lookup_insert_ne by done. by apply lookup_union_Some_l.
Qed.

Lemma personal_updateNote_final_cases (w : World) (id : string) (updates : JsObj)
    (st : PersonalNotesState) :
  final (updateNote w id updates st) = st
  ∨ final (updateNote w id updates st) = updateNote_update w id updates st.
Proof.
  unfold updateNote. destruct (connected w) as [sb |]; [| by right].
  split_action; cbn; (by left) || (by right).
Qed.

(** X15. [updateNote] of the personal notes store works on both lists at
    once and keeps their shape, in both modes and whatever the backend
    answers: no note is added, removed or moved, and only entries with the
    given identifier are rewritten, so an unknown identifier changes
    nothing. When the update goes through, what the cache holds for such
    an entry is the local merge: every property of the partial note, over
    those of the cached one, with the modification time set from the
    clock; the row stored by the backend is not read back. *)
Theorem personal_updateNote_merges_locally
    (w : World) (id : string) (updates : JsObj) (st : PersonalNotesState) :
  same_but_for id (notes st) (notes (final (updateNote w id updates st)))
  ∧ same_but_for id (sharedWithMe st) (sharedWithMe (final (updateNote w id updates st)))
  ∧ (JStr id ∉ ids (notes st) → JStr id ∉ ids (sharedWithMe st) →
       final (updateNote w id updates st) = st)
  ∧ (outcome (updateNote w id updates st) = Returned {| Runtime.error := None |} →
       final (updateNote w id updates st) = updateNote_update w id updates st
       ∧ requests (trace (updateNote w id updates st))
         = match connected w with
           | Some _ => [update_note_query w id updates]
           | None => []
           end
       ∧ Forall2 (λ before after,
                    prop before "id" = JStr id →
                    after !! "updated_at" = Some (JStr (now_iso w))
                    ∧ (∀ k v, k ≠ "updated_at" → updates !! k = Some v →
                              after !! k = Some v)
                    ∧ (∀ k, k ≠ "updated_at" → updates !! k = None →
                            after !! k = before !! k))
                 (notes st ++ sharedWithMe st)
                 (notes (final (updateNote w id updates st))
                  ++ sharedWithMe (final (updateNote w id updates st)))).
Proof.
  assert (Hshape :
    same_but_for id (notes st) (notes (final (updateNote w id updates st)))
    ∧ same_but_for id (sharedWithMe st)
        (sharedWithMe (final (updateNote w id updates st)))).
  { destruct (personal_updateNote_final_cases w id updates st) as [-> | ->].
    - split; apply same_but_for_refl.
    - split; apply touch_same_but_for. }
  destruct Hshape as [Hnotes Hshared].
  split; [exact Hnotes |]. split; [exact Hshared |]. split.
  - intros Hn Hs.
    pose proof (same_but_for_absent id _ _ Hnotes Hn) as Hn'.
    pose proof (same_but_for_absent id _ _ Hshared Hs) as Hs'.
    destruct (personal_updateNote_final_cases w id updates st) as [Hfin | Hfin];
      [done |].
    rewrite Hfin in Hn', Hs' |- *. cbn in Hn', Hs'. unfold updateNote_update.
    rewrite Hn', Hs'. by destruct st.
  - intros Hok.
    assert (Hfin : final (updateNote w id updates st) = updateNote_update w id updates st
                   ∧ requests (trace (updateNote w id updates st))
                     = match connected w with
                       | Some _ => [update_note_query w id updates]
                       | None => []
                       end).
    { revert Hok. unfold updateNote. destruct (connected w) as [sb |]; [| done].
      split_action; cbn; done. }
    destruct Hfin as [Hfin Hreq]. split; [exact Hfin |]. split; [exact Hreq |].
    rewrite Hfin. cbn. rewrite <- map_app.
    induction (notes st ++ sharedWithMe st) as [| n l IH]; [constructor |].
    cbn. constructor; [| exact IH].
    intros Hid. split; [| split].
    + unfold touch, strict_eq. rewrite bool_decide_eq_true_2 by done.
      apply lookup_insert_eq.
    + intros k v Hk Hv. by apply touch_merges.
    + intros k Hk Hv. unfold touch, strict_eq, spread.
      rewrite bool_decide_eq_true_2 by done.
      rewrite lookup_insert_ne by done. by apply lookup_union_r.
Qed.

Lemma personal_updateNote_merges_locally_witness :
  final (updateNote Scenarios.demo_world "p-9" {[ "title" := JStr "Ideas" ]}
           (Scenarios.personal_with [Scenarios.mine]))
  = Scenarios.personal_with [Scenarios.mine].
Proof.
  destruct (personal_updateNote_merges_locally Scenarios.demo_world "p-9"
              {[ "title" := JStr "Ideas" ]} (Scenarios.personal_with [Scenarios.mine]))
    as (_ & _ & Habsent & _).
  apply Habsent; intros Hin; vm_compute in Hin;
    repeat (apply elem_of_cons in Hin as [Hin | Hin]; [discriminate |]);
    by apply elem_of_nil in Hin.
Defined.



End PersonalActions.

(* ===================================================================== *)
(** ** Further facts: the month filter of the expenses page *)
(* ===================================================================== *)


Section Calendar.
Import Dates.
Local Open Scope Z_scope.








Lemma digit_bounds (c : ascii) (v : Z) : digit c = Some v → 0 <= v <= 9.
Proof.
  unfold digit. destruct ((48 <=? nat_of_ascii c)%nat && (nat_of_ascii c <=? 57)%nat) eqn:Hc;
    [| done].
  intros [= <-]. apply andb_true_iff in Hc as [H1 H2].
  apply Nat.leb_le in H1, H2. lia.
Qed.


End Calendar.

Section ExpensesFilter.
Import Expenses.



End ExpensesFilter.

(* ===================================================================== *)
(** ** Further facts: searching *)
(* ===================================================================== *)

Section Searching.
Import Text.

Lemma lower_ascii_idem (c : ascii) : lower_ascii (lower_ascii c) = lower_ascii c.
Proof. destruct c as [[] [] [] [] [] [] [] []]; reflexivity. Qed.

Lemma lower_ascii_whitespace (c : ascii) : is_whitespace (lower_ascii c) = is_whitespace c.
Proof. destruct c as [[] [] [] [] [] [] [] []]; reflexivity. Qed.

Lemma toLowerCase_idem (s : string) : toLowerCase (toLowerCase s) = toLowerCase s.
Proof. induction s as [| c s IH]; [done |]. cbn. by rewrite lower_ascii_idem, IH. Qed.

Lemma lower_ascii_whitespace2 (c1 c2 : ascii) :
  is_whitespace2 (lower_ascii c1) (lower_ascii c2) = is_whitespace2 c1 c2.
Proof.
  destruct c1 as [[] [] [] [] [] [] [] []]; try reflexivity;
    destruct c2 as [[] [] [] [] [] [] [] []]; reflexivity.
Qed.

Lemma lower_ascii_whitespace3 (c1 c2 c3 : ascii) :
  is_whitespace3 (lower_ascii c1) (lower_ascii c2) (lower_ascii c3)
  = is_whitespace3 c1 c2 c3.
Proof.
  destruct c1 as [[] [] [] [] [] [] [] []]; try reflexivity;
    destruct c2 as [[] [] [] [] [] [] [] []]; try reflexivity;
    destruct c3 as [[] [] [] [] [] [] [] []]; reflexivity.
Qed.

Lemma blank_toLowerCase_upto (n : nat) (s : string) :
  (String.length s ≤ n)%nat → blank (toLowerCase s) = blank s.
Proof.
  revert s. induction n as [| n IH]; intros s Hn.
  - destruct s; [done | cbn in Hn; lia].
  - destruct s as [| c1 s1]; [done |]. cbn in Hn.
    cbn [toLowerCase blank]. rewrite lower_ascii_whitespace.
    destruct (is_whitespace c1); [apply IH; lia |].
    destruct s1 as [| c2 s2]; [done |]. cbn in Hn.
    cbn [toLowerCase]. rewrite lower_ascii_whitespace2.
    destruct (is_whitespace2 c1 c2); [apply IH; lia |].
    destruct s2 as [| c3 s3]; [done |]. cbn in Hn.
    cbn [toLowerCase]. rewrite lower_ascii_whitespace3.
    destruct (is_whitespace3 c1 c2 c3); [| done].
    cbn [andb]. apply IH. lia.
Qed.

Lemma blank_toLowerCase (s : string) : blank (toLowerCase s) = blank s.
Proof. by apply (blank_toLowerCase_upto (String.length s)). Qed.

Lemma empty_toLowerCase (s : string) : String.eqb (toLowerCase s) "" = String.eqb s "".
Proof. by destruct s. Qed.

(** X18. Both searches ignore the case of ASCII letters in what the user
    types: two queries that differ only in letter case give the same
    search results in the global search and select the same expenses on
    the expenses page, whatever the caches and the other filters are. *)
Theorem searches_ignore_the_case_of_the_query (q q' : string) :
  toLowerCase q = toLowerCase q' →
  (∀ c st, GlobalSearch.performSearch c q st = GlobalSearch.performSearch c q' st)
  ∧ (∀ now f expenses,
       Expenses.filteredExpenses now (Expenses.setSearchTerm q f) expenses
       = Expenses.filteredExpenses now (Expenses.setSearchTerm q' f) expenses).
Proof.
  intros Hq. split.
  - intros c st. unfold GlobalSearch.performSearch.
    rewrite <- (blank_toLowerCase q), <- (blank_toLowerCase q'), Hq.
    by destruct (blank (toLowerCase q')).
  - intros now f expenses. unfold Expenses.filteredExpenses.
    apply filter_ext_all. intros expense. unfold Expenses.keeps. cbn.
    rewrite <- (empty_toLowerCase q), <- (empty_toLowerCase q'), Hq. done.
Qed.

Lemma searches_ignore_the_case_of_the_query_witness :
  GlobalSearch.performSearch Scenarios.caches "INFORME" Scenarios.idle
  = GlobalSearch.performSearch Scenarios.caches "informe" Scenarios.idle
  ∧ GlobalSearch.results
      (GlobalSearch.performSearch Scenarios.caches "informe" Scenarios.idle)
    ≠ [].
Proof.
  split.
  - apply (searches_ignore_the_case_of_the_query "INFORME" "informe"). reflexivity.
  - vm_compute. discriminate.
Defined.





(** X20. With results on display, the arrow keys keep the selected index
    within the results: ArrowDown stops at the last result and ArrowUp at
    the first. With no results, ArrowDown moves the index to -1, where
    Enter finds no result to open, and ArrowUp brings it back to 0. Any
    other key leaves the index alone. *)
Theorem arrows_keep_the_selection_in_range (count : nat) (prev : Z) (key : string) :
  ((0 < count)%nat → (0 ≤ prev < Z.of_nat count)%Z →
     (0 ≤ GlobalSearch.arrow key count prev < Z.of_nat count)%Z
     ∧ (prev = (Z.of_nat count - 1)%Z → GlobalSearch.arrow "ArrowDown" count prev = prev)
     ∧ (prev = 0%Z → GlobalSearch.arrow "ArrowUp" count prev = prev))
  ∧ ((-1 ≤ prev)%Z → GlobalSearch.arrow "ArrowDown" 0 prev = (-1)%Z)
  ∧ (∀ results, GlobalSearch.selected_result results (-1) = None)
  ∧ (0 ≤ GlobalSearch.arrow "ArrowUp" count prev)%Z
  ∧ (key ≠ "ArrowDown" → key ≠ "ArrowUp" → GlobalSearch.arrow key count prev = prev).
Proof.
  unfold GlobalSearch.arrow. repeat split; cbn; try lia.
  - destruct (String.eqb key "ArrowDown"); [lia |].
    destruct (String.eqb key "ArrowUp"); lia.
  - destruct (String.eqb key "ArrowDown"); [lia |].
    destruct (String.eqb key "ArrowUp"); lia.
  - intros Hd Hu. apply String.eqb_neq in Hd, Hu. by rewrite Hd, Hu.
Qed.

Lemma arrows_keep_the_selection_in_range_witness :
  (0 ≤ GlobalSearch.arrow "ArrowDown" 3 2 < 3)%Z
  ∧ GlobalSearch.arrow "ArrowDown" 0 0 = (-1)%Z.
Proof.
  destruct (arrows_keep_the_selection_in_range 3 2 "ArrowDown") as (Hin & _).
  destruct (arrows_keep_the_selection_in_range 0 0 "ArrowDown") as (_ & Hempty & _).
  split.
  - apply Hin; lia.
  - apply Hempty. lia.
Defined.

End Searching.

(* ===================================================================== *)
(** ** Further facts: creating and deleting a note in demo mode *)
(* ===================================================================== *)

Section DemoRoundTrip.
Import NotesStore.

(** X21. In demo mode, creating a note and then deleting it by its
    generated identifier gives back the store there was before, provided
    no cached note already had that identifier and the selection did not
    point at it. *)
Theorem demo_create_then_delete (w : World) (note : JsObj) (st : NotesState) :
  connected w = None →
  JStr (generateId w) ∉ ids (notes st) →
  opt_prop (selectedNote st) "id" ≠ JStr (generateId w) →
  outcome (deleteNote w (generateId w) (final (createNote w note st)))
    = Returned {| error := None |}
  ∧ final (deleteNote w (generateId w) (final (createNote w note st))) = st.
Proof.
  intros Hc Hfresh Hsel. unfold deleteNote, createNote. rewrite Hc.
  split; [done |]. unfold_action. unfold deleteNote_update.
  cbn [notes selectedNote isLoading filter set_notes set_selected].
  rewrite filter_cons_False by (intros Hne; by apply Hne).
  rewrite filter_absent_id by done.
  rewrite strict_eq_decide.
  destruct (decide (opt_prop (selectedNote st) "id" = JStr (generateId w))); [done |].
  by destruct st.
Qed.

Lemma demo_create_then_delete_witness :
  final (deleteNote Scenarios.demo_world (generateId Scenarios.demo_world)
           (final (createNote Scenarios.demo_world Scenarios.task_unassigned
                     (Scenarios.notes_with [Scenarios.task_bob] (Some Scenarios.task_bob)))))
  = Scenarios.notes_with [Scenarios.task_bob] (Some Scenarios.task_bob).
Proof.
  apply (demo_create_then_delete Scenarios.demo_world Scenarios.task_unassigned
           (Scenarios.notes_with [Scenarios.task_bob] (Some Scenarios.task_bob)) eq_refl).
  - intros Hin. vm_compute in Hin.
    repeat (apply elem_of_cons in Hin as [Hin | Hin]; [discriminate |]).
    by apply elem_of_nil in Hin.
  - vm_compute. discriminate.
Defined.

End DemoRoundTrip.
